(** * data_generation/generate.py: resumable, load-balanced generation

    A shallow embedding of [src/data_generation/generate.py].  The script
    probes two local inference servers, computes a resume offset from the
    lines already present in the output file, and submits one
    [generate_data] unit per remaining sample.  Each unit replays a
    conversation against its backend and appends one JSON line.

    The embedding threads an explicit [world] (file system, log of backend
    requests, open clients, printed lines) through a small state-and-exception
    monad.  The inference servers and the fastchat template renderer are
    external: they appear as section variables.

    Three choices of the model:
    - the units of the thread pool run one after the other, in submission
      order; the properties proved of a whole run do not depend on that
      order beyond the order of the lines in the output file;
    - a client leaves [open_clients] only through [client.close()]; what
      the garbage collector may release later is not modelled;
    - strings range over code points below 256, JSON numbers over the
      integers, and the file system has no permissions. *)

From Stdlib Require Import ZArith Lia Ascii String DecimalString.
From stdpp Require Import gmap strings list.

(** ** Python exceptions raised by the script *)

Inductive exn :=
| ZeroDivisionError
| IndexError
| KeyError (key : string)
| AttributeError
| FileNotFoundError
| NotADirectoryError
| IsADirectoryError
| FileExistsError
| ValueError
| BackendError (code : nat).

(** The result of evaluating a Python expression or statement. *)
Inductive outcome (A : Type) :=
| Ok (a : A)
| Raise (e : exn).
Arguments Ok {A} a.
Arguments Raise {A} e.

(** ** Characters and strings

    A Python [str] is modelled by [string]; each [ascii] stands for the code
    point of the same number, so the model covers text over code points
    below 256. *)

Definition LF : ascii := "010"%char.
Definition CR : ascii := "013"%char.
Definition dquote : ascii := "034"%char.
Definition backslash : ascii := "092"%char.

Definition str1 (c : ascii) : string := String c EmptyString.

(** [str.isspace] on one code point below 256. *)
Definition isspace (c : ascii) : bool :=
  let n := nat_of_ascii c in
  ((9 <=? n) && (n <=? 13)) || ((28 <=? n) && (n <=? 32))
  || (n =? 133) || (n =? 160).

Fixpoint lstrip (s : string) : string :=
  match s with
  | String c s' => if isspace c then lstrip s' else s
  | EmptyString => EmptyString
  end.

Fixpoint rstrip (s : string) : string :=
  match s with
  | String c s' =>
      match rstrip s' with
      | EmptyString => if isspace c then EmptyString else str1 c
      | t => String c t
      end
  | EmptyString => EmptyString
  end.

(** [str.strip()] with no argument. *)
Definition strip (s : string) : string := rstrip (lstrip s).

(** ** JSON values, as [json.load] builds them and [json.dumps] prints them

    Objects are association lists: a Python [dict] keeps insertion order and
    [json.dumps] prints in that order.  Floats are left out. *)

#[local] Unset Elimination Schemes.
Inductive json :=
| JNull
| JBool (b : bool)
| JInt (n : Z)
| JStr (s : string)
| JArr (items : list json)
| JObj (fields : list (string * json)).
#[local] Set Elimination Schemes.

(** Induction on JSON values, through arrays and objects. *)
Section JsonInduction.

Variable P : json → Prop.
Hypothesis P_null : P JNull.
Hypothesis P_bool : ∀ b, P (JBool b).
Hypothesis P_int : ∀ n, P (JInt n).
Hypothesis P_str : ∀ s, P (JStr s).
Hypothesis P_arr : ∀ items, Forall P items → P (JArr items).
Hypothesis P_obj : ∀ fields, Forall (λ kv, P kv.2) fields → P (JObj fields).

Fixpoint json_ind (v : json) : P v :=
  match v with
  | JNull => P_null
  | JBool b => P_bool b
  | JInt n => P_int n
  | JStr s => P_str s
  | JArr items =>
      P_arr items
        ((fix all (l : list json) : Forall P l :=
            match l with
            | [] => @List.Forall_nil _ P
            | x :: l' => @List.Forall_cons _ P x l' (json_ind x) (all l')
            end) items)
  | JObj fields =>
      P_obj fields
        ((fix all (l : list (string * json)) : Forall (λ kv, P kv.2) l :=
            match l with
            | [] => @List.Forall_nil _ (λ kv, P kv.2)
            | kv :: l' =>
                @List.Forall_cons _ (λ kv, P kv.2) kv l'
                  (match kv as kv' return P kv'.2 with
                   | (_, x) => json_ind x
                   end) (all l')
            end) fields)
  end.

End JsonInduction.

(** A Python dict with string keys, in insertion order.  Keys are meant
    to be distinct, as in a dict; a lookup takes the first binding. *)
Definition pydict := list (string * json).

(** [d[k]]: the value under [k], or [KeyError]. *)
Fixpoint subscript (d : pydict) (k : string) : outcome json :=
  match d with
  | [] => Raise (KeyError k)
  | (k', v) :: d' => if String.eqb k' k then Ok v else subscript d' k
  end.

(** [v == s] for a string literal [s]: only a [str] equals a [str]. *)
Definition eq_str (v : json) (s : string) : bool :=
  match v with
  | JStr s' => String.eqb s' s
  | _ => false
  end.

Definition hex_digit (n : nat) : ascii :=
  ascii_of_nat (if n <? 10 then 48 + n else 87 + n).

(** One character under [ensure_ascii=True]: the short escapes, the
    printable range as itself, anything else as a four-digit escape. *)
Definition escape_char (c : ascii) : string :=
  let n := nat_of_ascii c in
  if n =? 34 then String backslash (str1 dquote)
  else if n =? 92 then String backslash (str1 backslash)
  else if n =? 10 then String backslash "n"
  else if n =? 13 then String backslash "r"
  else if n =? 9 then String backslash "t"
  else if n =? 8 then String backslash "b"
  else if n =? 12 then String backslash "f"
  else if (32 <=? n) && (n <=? 126) then str1 c
  else String backslash
         ("u00" +:+ String (hex_digit (n / 16)) (str1 (hex_digit (n mod 16)))).

Fixpoint escape (s : string) : string :=
  match s with
  | EmptyString => EmptyString
  | String c s' => escape_char c +:+ escape s'
  end.

Definition encode_str (s : string) : string :=
  String dquote (escape s +:+ str1 dquote).

(** [sep.join(parts)]. *)
Fixpoint join (sep : string) (parts : list string) : string :=
  match parts with
  | [] => EmptyString
  | [p] => p
  | p :: ps => p +:+ sep +:+ join sep ps
  end.

(** [json.dumps(v)] with the default separators. *)
Fixpoint dumps (v : json) : string :=
  match v with
  | JNull => "null"
  | JBool true => "true"
  | JBool false => "false"
  | JInt n => NilZero.string_of_int (Z.to_int n)
  | JStr s => encode_str s
  | JArr items => "[" +:+ join ", " (map dumps items) +:+ "]"
  | JObj fields =>
      "{" +:+ join ", "
                (map (fun kv => match kv with
                                | (k, x) => encode_str k +:+ ": " +:+ dumps x
                                end) fields) +:+ "}"
  end.

(** ** Text files

    [count_lines text] is [sum(1 for _ in f)] over a file opened in text
    mode: universal newlines end a line at a line feed, at a carriage
    return, or at the two together; a last line needs no terminator.
    [pending] records that the current line already holds a character. *)

Fixpoint count_lines_from (pending : bool) (text : string) : nat :=
  match text with
  | EmptyString => if pending then 1 else 0
  | String c rest =>
      if Ascii.eqb c LF then S (count_lines_from false rest)
      else if Ascii.eqb c CR then
        match rest with
        | String c' rest' =>
            if Ascii.eqb c' LF then S (count_lines_from false rest')
            else S (count_lines_from false rest)
        | EmptyString => 1
        end
      else count_lines_from true rest
  end.

Definition count_lines (text : string) : nat := count_lines_from false text.

(** A text without a line terminator inside. *)
Fixpoint one_line (s : string) : bool :=
  match s with
  | EmptyString => true
  | String c s' => negb (Ascii.eqb c LF) && negb (Ascii.eqb c CR) && one_line s'
  end.

(** A text that is empty or ends with a line feed. *)
Fixpoint ends_lines (s : string) : bool :=
  match s with
  | EmptyString => true
  | String c EmptyString => Ascii.eqb c LF
  | String _ s' => ends_lines s'
  end.

(** ** The file system

    A path is its list of components from the root; the root itself is the
    empty list and is always a directory. *)

Definition path := list string.

Inductive node :=
| Dir
| File (content : string).

Definition parent (p : path) : path := removelast p.

Definition stat (fs : gmap path node) (p : path) : option node :=
  match p with
  | [] => Some Dir
  | _ => fs !! p
  end.

(** [Path.mkdir(parents=True, exist_ok=True)]: walk down from the root,
    creating what is missing; a regular file in the way is an error. *)
Fixpoint mkdir_from (fs : gmap path node) (done : path) (rest : list string)
  : outcome (gmap path node) :=
  match rest with
  | [] => Ok fs
  | c :: rest' =>
      let q := done ++ [c] in
      match fs !! q with
      | Some Dir => mkdir_from fs q rest'
      | Some (File _) =>
          Raise (match rest' with
                 | [] => FileExistsError
                 | _ => NotADirectoryError
                 end)
      | None => mkdir_from (<[q := Dir]> fs) q rest'
      end
  end.

Definition mkdir_parents (fs : gmap path node) (p : path)
  : outcome (gmap path node) := mkdir_from fs [] p.

(** What creating a missing entry at [p] needs of its parent. *)
Definition create_at (fs : gmap path node) (p : path) (n : node)
  : outcome (gmap path node) :=
  match stat fs (parent p) with
  | Some Dir => Ok (<[p := n]> fs)
  | Some (File _) => Raise NotADirectoryError
  | None => Raise FileNotFoundError
  end.

(** [Path.touch()]: an existing entry keeps its content. *)
Definition fs_touch (fs : gmap path node) (p : path)
  : outcome (gmap path node) :=
  match stat fs p with
  | Some _ => Ok fs
  | None => create_at fs p (File EmptyString)
  end.

(** [open(p)] for reading, then reading the whole text. *)
Definition fs_read (fs : gmap path node) (p : path) : outcome string :=
  match stat fs p with
  | Some (File text) => Ok text
  | Some Dir => Raise IsADirectoryError
  | None => Raise FileNotFoundError
  end.

(** [open(p, "a")] followed by one [f.write(text)]. *)
Definition fs_append (fs : gmap path node) (p : path) (text : string)
  : outcome (gmap path node) :=
  match stat fs p with
  | Some (File old) => Ok (<[p := File (old +:+ text)]> fs)
  | Some Dir => Raise IsADirectoryError
  | None => create_at fs p (File text)
  end.

(** ** Backends, clients and the request log *)

(** [Localhost port] stands for the base URL [http://localhost:{port}/v1]. *)
Inductive url :=
| Localhost (port : Z).

(** An [OpenAI(...)] client object; [handle] is its identity. *)
Record client := {
  handle : nat;
  api_key : string;
  base_url : url;
  timeout : option nat
}.

(** One entry of the [messages=] argument of a chat request. *)
Record message := {
  role : string;
  content : json
}.

Inductive request :=
| ModelsList (c : client)
| ChatCreate (c : client) (model : string) (messages : list message)
| CompletionCreate (c : client) (model : string) (prompt : string).

Definition request_client (r : request) : client :=
  match r with
  | ModelsList c => c
  | ChatCreate c _ _ => c
  | CompletionCreate c _ _ => c
  end.

Definition is_generation (r : request) : bool :=
  match r with
  | ModelsList _ => false
  | _ => true
  end.

(** A [choices] entry of a chat response. *)
Record chat_choice := {
  finish_reason : string;
  message_content : option string
}.

(** A [choices] entry of a completion response. *)
Record completion_choice := {
  text : string
}.

(** What the script prints on standard output. *)
Inductive printed :=
| CheckingPort (port : Z)
| BaseUrlModels (u : url) (ids : list string)
| ApiBasePool (pool : list url)
| CouldNotFetch (u : url)
| FailedToGenerate (e : exn) (prompt : string)
| SkipFirst (n : nat).

(** ** The world and the monad of the script *)

Record world := {
  fs : gmap path node;
  requests : list request;
  open_clients : list nat;
  next_handle : nat;
  stdout : list printed
}.

Definition set_fs (f : gmap path node) (w : world) : world :=
  {| fs := f; requests := requests w; open_clients := open_clients w;
     next_handle := next_handle w; stdout := stdout w |}.

Definition log_requests (rs : list request) (w : world) : world :=
  {| fs := fs w; requests := requests w ++ rs;
     open_clients := open_clients w; next_handle := next_handle w;
     stdout := stdout w |}.

Definition log_request (r : request) (w : world) : world :=
  log_requests [r] w.

Definition new_client (w : world) : world :=
  {| fs := fs w; requests := requests w;
     open_clients := next_handle w :: open_clients w;
     next_handle := S (next_handle w); stdout := stdout w |}.

Definition drop_client (h : nat) (w : world) : world :=
  {| fs := fs w; requests := requests w;
     open_clients := filter (fun h' => h' ≠ h) (open_clients w);
     next_handle := next_handle w; stdout := stdout w |}.

Definition add_stdout (p : printed) (w : world) : world :=
  {| fs := fs w; requests := requests w; open_clients := open_clients w;
     next_handle := next_handle w; stdout := stdout w ++ [p] |}.

(** A computation: it runs in a world, ends in a value or an exception, and
    leaves a world behind either way. *)
Definition M (A : Type) : Type := world → outcome A * world.

#[export] Instance M_ret : MRet M := λ A a w, (Ok a, w).

#[export] Instance M_bind : MBind M := λ A B f m w,
  match m w with
  | (Ok a, w') => f a w'
  | (Raise e, w') => (Raise e, w')
  end.

(** An expression without effect. *)
Definition lift {A} (o : outcome A) : M A := λ w, (o, w).

(** [try: m except Exception: ...]: the exception becomes a value. *)
Definition try_except {A} (m : M A) : M (outcome A) := λ w,
  match m w with
  | (r, w') => (Ok r, w')
  end.

(** [l[i]] on a list. *)
Definition getitem {A} (l : list A) (i : nat) : outcome A :=
  match l !! i with
  | Some x => Ok x
  | None => Raise IndexError
  end.

Definition print (p : printed) : M unit := λ w, (Ok tt, add_stdout p w).

Definition path_exists (p : path) : M bool := λ w,
  (Ok (bool_decide (is_Some (stat (fs w) p))), w).

Definition update_fs (f : gmap path node → outcome (gmap path node)) : M unit :=
  λ w, match f (fs w) with
       | Ok fs' => (Ok tt, set_fs fs' w)
       | Raise e => (Raise e, w)
       end.

Definition read_text (p : path) : M string := λ w, (fs_read (fs w) p, w).

(** [OpenAI(api_key=..., base_url=..., timeout=...)]. *)
Definition OpenAI (key : string) (u : url) (t : option nat) : M client := λ w,
  (Ok {| handle := next_handle w; api_key := key; base_url := u;
         timeout := t |}, new_client w).

(** [client.close()]. *)
Definition close (c : client) : M unit := λ w, (Ok tt, drop_client (handle c) w).

(** ** Reading the log back

    [_read_jsonl] of [medusa/train/train_legacy.py] and of
    [data_generation/test_and_modify_dataset.py] reads what the script
    above writes.  [json.loads] is external: it is the argument [loads]. *)

(** The lines a text file yields when it is iterated: each with its
    terminator as a line feed, the last one possibly without.  [cur] is
    the line read so far. *)
Fixpoint file_lines_from (cur : string) (text : string) : list string :=
  match text with
  | EmptyString =>
      match cur with
      | EmptyString => []
      | _ => [cur]
      end
  | String c rest =>
      if Ascii.eqb c LF then (cur +:+ str1 LF) :: file_lines_from EmptyString rest
      else if Ascii.eqb c CR then
        match rest with
        | String c' rest' =>
            if Ascii.eqb c' LF
            then (cur +:+ str1 LF) :: file_lines_from EmptyString rest'
            else (cur +:+ str1 LF) :: file_lines_from EmptyString rest
        | EmptyString => [cur +:+ str1 LF]
        end
      else file_lines_from (cur +:+ str1 c) rest
  end.

Definition file_lines (text : string) : list string :=
  file_lines_from EmptyString text.

(** The truth value of [line.strip()]. *)
Definition nonblank (line : string) : bool :=
  match strip line with
  | EmptyString => false
  | _ => true
  end.

(** A list comprehension [[f(x) for x in l]] whose [f] may raise. *)
Fixpoint traverse {A B} (f : A → outcome B) (l : list A) : outcome (list B) :=
  match l with
  | [] => Ok []
  | x :: l' =>
      match f x with
      | Raise e => Raise e
      | Ok y =>
          match traverse f l' with
          | Raise e => Raise e
          | Ok ys => Ok (y :: ys)
          end
      end
  end.

(** The lines [_read_jsonl] hands to [json.loads]: the non-blank ones,
    and in debug mode only those among the first 20 lines of the file. *)
Definition selected_lines (debug : bool) (lines : list string) : list string :=
  if debug then
    snd <$> filter (λ il : nat * string, nonblank il.2 && (il.1 <? 20) = true)
              (imap (λ i line, (i, line)) lines)
  else filter (λ line, nonblank line = true) lines.

(** [_read_jsonl(path, debug)] on the file system [f]. *)
Definition read_jsonl (loads : string → outcome json) (f : gmap path node)
    (p : path) (debug : bool) : outcome (list json) :=
  match fs_read f p with
  | Raise e => Raise e
  | Ok content => traverse loads (selected_lines debug (file_lines content))
  end.

(** ** The inputs of the script *)

(** The parsed command line; [float] is the type of [args.temperature],
    which is only passed on. *)
Record arguments (float : Type) := {
  data_path : path;
  output_path : path;
  num_threads : Z;
  temperature : float;
  max_tokens : Z;
  chat : bool
}.
Arguments data_path {float} _.
Arguments output_path {float} _.
Arguments num_threads {float} _.
Arguments temperature {float} _.
Arguments max_tokens {float} _.
Arguments chat {float} _.

(** One element of the loaded data file. *)
Record sample := {
  sample_id : string;
  conversations : list pydict
}.

(** One [ex.submit(generate_data, messages, idx)]. *)
Record task := {
  task_messages : list pydict;
  task_idx : nat
}.

(** What a run of the script went through. *)
Record report := {
  live_pool : list url;
  start_idx_of : nat;
  submitted : list task;
  futures : list (outcome unit)
}.

(** ** Example inputs *)

(** The sample of the end-to-end example: a system turn, a user turn and an
    assistant turn without content. *)
Definition be_terse_sample : list pydict :=
  [ [("from", JStr "system"); ("text", JStr "be terse")];
    [("from", JStr "human"); ("value", JStr "2+2?")];
    [("from", JStr "gpt"); ("value", JNull)] ].

Definition quoted (s : string) : string := String dquote (s +:+ str1 dquote).

(** The line expected for [be_terse_sample] and the answer 4. *)
Definition be_terse_line : string :=
  "{" +:+ quoted "conversations" +:+ ": [{"
  +:+ quoted "from" +:+ ": " +:+ quoted "system" +:+ ", "
  +:+ quoted "text" +:+ ": " +:+ quoted "be terse" +:+ "}, {"
  +:+ quoted "from" +:+ ": " +:+ quoted "human" +:+ ", "
  +:+ quoted "value" +:+ ": " +:+ quoted "2+2?" +:+ "}, {"
  +:+ quoted "from" +:+ ": " +:+ quoted "gpt" +:+ ", "
  +:+ quoted "value" +:+ ": " +:+ quoted "4" +:+ "}]}".

(** A chat response with the text 4 and the finish reason stop. *)
Definition four_stop : list chat_choice :=
  [{| finish_reason := "stop"; message_content := Some "4" |}].

(** The same sample with a second question. *)
Definition two_question_sample : list pydict :=
  be_terse_sample
  ++ [ [("from", JStr "human"); ("value", JStr "3+3?")];
       [("from", JStr "gpt"); ("value", JNull)] ].

(** Two questions, then an assistant turn where a user turn belongs. *)
Definition stray_sample : list pydict :=
  [ [("from", JStr "human"); ("value", JStr "2+2?")];
    [("from", JStr "gpt"); ("value", JNull)];
    [("from", JStr "human"); ("value", JStr "3+3?")];
    [("from", JStr "gpt"); ("value", JNull)];
    [("from", JStr "gpt"); ("value", JStr "stray")] ].

(** The line of a record that holds the first question and its answer. *)
Definition first_pair_line : string :=
  "{" +:+ quoted "conversations" +:+ ": [{"
  +:+ quoted "from" +:+ ": " +:+ quoted "human" +:+ ", "
  +:+ quoted "value" +:+ ": " +:+ quoted "2+2?" +:+ "}, {"
  +:+ quoted "from" +:+ ": " +:+ quoted "gpt" +:+ ", "
  +:+ quoted "value" +:+ ": " +:+ quoted "4" +:+ "}]}".

(** The line of a record that holds the system turn alone. *)
Definition system_only_line : string :=
  "{" +:+ quoted "conversations" +:+ ": [{"
  +:+ quoted "from" +:+ ": " +:+ quoted "system" +:+ ", "
  +:+ quoted "text" +:+ ": " +:+ quoted "be terse" +:+ "}]}".

(** A response cut at the length limit. *)
Definition cut_short : list chat_choice :=
  [{| finish_reason := "length"; message_content := Some "6, beca" |}].

(** Stub backends.  Every server lists one model. *)
Definition serving (t : nat) (c : client) : outcome (list string) :=
  Ok ["vicuna"].

(** No server answers. *)
Definition unreachable (t : nat) (c : client) : outcome (list string) :=
  Raise (BackendError 111).

(** Every chat request is answered with 4. *)
Definition chat_four (t : nat) (c : client) (model : string)
    (messages : list message) (max_tokens : Z) (temperature : unit)
  : outcome (list chat_choice) := Ok four_stop.

(** Every chat request fails. *)
Definition chat_down (t : nat) (c : client) (model : string)
    (messages : list message) (max_tokens : Z) (temperature : unit)
  : outcome (list chat_choice) := Raise (BackendError 500).

(** The chat request made as request number 1 is answered with 4; later
    ones are cut at the length limit. *)
Definition chat_then_cut (t : nat) (c : client) (model : string)
    (messages : list message) (max_tokens : Z) (temperature : unit)
  : outcome (list chat_choice) :=
  if t <? 2 then Ok four_stop else Ok cut_short.

Definition stub_completions (t : nat) (c : client) (model : string)
    (prompt : string) (max_tokens : Z) (temperature : unit)
  : outcome (list completion_choice) := Ok [{| text := " 4 " |}].

(** A stub template: the conversation is its prompt so far. *)
Definition stub_template (model : string) : string := EmptyString.
Definition stub_set_system (conv : string) (text : json) : string := conv.
Definition stub_roles (conv : string) : string * string :=
  ("USER", "ASSISTANT").
Definition stub_append (conv : string) (role : string) (m : option json)
  : string := conv +:+ role +:+ ": ".
Definition stub_prompt (conv : string) : string := conv.

Definition chat_args : arguments unit :=
  {| data_path := ["data.json"]; output_path := ["out.jsonl"];
     num_threads := 256; temperature := tt; max_tokens := 2048;
     chat := true |}.

Definition completion_args : arguments unit :=
  {| data_path := ["data.json"]; output_path := ["out.jsonl"];
     num_threads := 256; temperature := tt; max_tokens := 2048;
     chat := false |}.

(** An output path under directories that do not exist yet. *)
Definition nested_args : arguments unit :=
  {| data_path := ["data.json"]; output_path := ["runs"; "new"; "out.jsonl"];
     num_threads := 256; temperature := tt; max_tokens := 2048;
     chat := true |}.

Definition be_terse_data : list sample :=
  [{| sample_id := "s0"; conversations := be_terse_sample |}].

Definition three_samples : list sample :=
  [{| sample_id := "s0"; conversations := be_terse_sample |};
   {| sample_id := "s1"; conversations := two_question_sample |};
   {| sample_id := "s2"; conversations := stray_sample |}].

(** A world with an empty file system and nothing done yet. *)
Definition empty_world : world :=
  {| fs := ∅; requests := []; open_clients := []; next_handle := 0;
     stdout := [] |}.

(** A world whose output file already holds two lines. *)
Definition resumed_world : world :=
  {| fs := {[ ["out.jsonl"]
              := File ("{}" +:+ str1 LF +:+ "{}" +:+ str1 LF) ]};
     requests := []; open_clients := []; next_handle := 0; stdout := [] |}.

(** The chat request made as request number 1 is answered with 4; later
    ones fail. *)
Definition chat_then_down (t : nat) (c : client) (model : string)
    (messages : list message) (max_tokens : Z) (temperature : unit)
  : outcome (list chat_choice) :=
  if t <? 2 then Ok four_stop else Raise (BackendError 500).

(** Every completion request fails. *)
Definition completions_down (t : nat) (c : client) (model : string)
    (prompt : string) (max_tokens : Z) (temperature : unit)
  : outcome (list completion_choice) := Raise (BackendError 500).

(** A question with its answer, then a user turn without a content. *)
Definition missing_value_sample : list pydict :=
  [ [("from", JStr "human"); ("value", JStr "2+2?")];
    [("from", JStr "gpt"); ("value", JNull)];
    [("from", JStr "human")] ].

(** [be_terse_sample] with another assistant turn. *)
Definition other_answer_sample : list pydict :=
  [ [("from", JStr "system"); ("text", JStr "be terse")];
    [("from", JStr "human"); ("value", JStr "2+2?")];
    [("from", JStr "gpt"); ("value", JStr "four")] ].

(** The line of completion mode for [be_terse_sample], the stub template
    and the answer 4. *)
Definition completion_line : string :=
  "{" +:+ quoted "text" +:+ ": " +:+ quoted "USER: ASSISTANT: 4" +:+ "}".


(** A world in which the output path names a directory. *)
Definition directory_world : world :=
  {| fs := {[ ["out.jsonl"] := Dir ]};
     requests := []; open_clients := []; next_handle := 0; stdout := [] |}.

(** A stub of [json.loads] that knows the line of the empty object. *)
Definition loads_empty_object (line : string) : outcome json :=
  if String.eqb line ("{}" +:+ str1 LF) then Ok (JObj []) else Raise ValueError.

(** ** The script *)

Section Generate.

Variable float : Type.

(** The inference servers.  The first argument is the number of requests
    made so far in the run, so a server may answer the same request
    differently at different times.  A chat or completion request also
    carries [max_tokens] and [temperature]. *)
Variable models_list : nat → client → outcome (list string).
Variable chat_create :
  nat → client → string → list message → Z → float → outcome (list chat_choice).
Variable completions_create :
  nat → client → string → string → Z → float
  → outcome (list completion_choice).

(** fastchat's conversation templates. *)
Variable Conversation : Type.
Variable get_conversation_template : string → Conversation.
Variable set_system_message : Conversation → json → Conversation.
Variable roles : Conversation → string * string.
Variable append_message : Conversation → string → option json → Conversation.
Variable get_prompt : Conversation → string.

Variable args : arguments float.

(** [client.models.list().data], as the list of model ids. *)
Definition client_models_list (c : client) : M (list string) := λ w,
  (models_list (length (requests w)) c, log_request (ModelsList c) w).

(** [client.chat.completions.create(...).choices]. *)
Definition chat_completions_create (c : client) (model : string)
    (messages : list message) : M (list chat_choice) := λ w,
  (chat_create (length (requests w)) c model messages
     (max_tokens args) (temperature args),
   log_request (ChatCreate c model messages) w).

(** [client.completions.create(...).choices]; the [extra_body] of the
    request is a constant of the script and is left to the server. *)
Definition client_completions_create (c : client) (model : string)
    (prompt : string) : M (list completion_choice) := λ w,
  (completions_create (length (requests w)) c model prompt
     (max_tokens args) (temperature args),
   log_request (CompletionCreate c model prompt) w).

(** [open(args.output_path, "a")] and one [f.write(line)]. *)
Definition append_output (line : string) : M unit :=
  update_fs (λ f, fs_append f (output_path args) line).

(** [api_base_pool[idx % len(api_base_pool)]]. *)
Definition select_base_url (api_base_pool : list url) (idx : nat)
  : outcome url :=
  match length api_base_pool with
  | 0 => Raise ZeroDivisionError
  | S _ => getitem api_base_pool (idx mod length api_base_pool)
  end.

(** [messages[::2]]. *)
Fixpoint every_other {A} (l : list A) : list A :=
  match l with
  | x :: _ :: rest => x :: every_other rest
  | _ => l
  end.

Definition gpt_turn (answer : string) : pydict :=
  [("from", JStr "gpt"); ("value", JStr answer)].

Definition user_message (value : json) : message :=
  {| role := "user"; content := value |}.

Definition assistant_message (answer : string) : message :=
  {| role := "assistant"; content := JStr answer |}.

(** The [for m in messages[::2]] loop of chat mode over the user turns
    [ms].  [None]: the function returned from inside the loop.
    [Some (converted, output_conv)]: the loop ran out of turns or hit
    [break], with the two accumulators as they stand. *)
Fixpoint chat_loop (c : client) (model_name : string) (ms : list pydict)
    (converted : list message) (output_conv : list pydict)
  : M (option (list message * list pydict)) :=
  match ms with
  | [] => mret (Some (converted, output_conv))
  | m :: ms' =>
      from ← lift (subscript m "from");
      if negb (eq_str from "human") then mret None
      else
        value ← lift (subscript m "value");
        let converted := converted ++ [user_message value] in
        resp ← try_except (chat_completions_create c model_name converted);
        match resp with
        | Raise _ => mret (Some (converted, output_conv))
        | Ok choices =>
            choice ← lift (getitem choices 0);
            if String.eqb (finish_reason choice) "length"
            then mret (Some (converted, output_conv))
            else
              assistant_answer ←
                lift (match message_content choice with
                      | Some s => Ok (strip s)
                      | None => Raise AttributeError
                      end);
              chat_loop c model_name ms'
                (converted ++ [assistant_message assistant_answer])
                (output_conv ++ [m; gpt_turn assistant_answer])
        end
  end.

(** The optional leading system message of chat mode: the seeded
    accumulators and the turns that remain. *)
Definition chat_system (messages : list pydict)
  : M (list message * list pydict * list pydict) :=
  match messages with
  | m0 :: rest =>
      from ← lift (subscript m0 "from");
      if eq_str from "system" then
        text ← lift (subscript m0 "text");
        mret ([{| role := "system"; content := text |}], [m0], rest)
      else mret ([], [], messages)
  | [] => mret ([], [], messages)
  end.

Definition chat_record (output_conv : list pydict) : json :=
  JObj [("conversations", JArr (map JObj output_conv))].

(** Chat mode up to the end of the loop. *)
Definition chat_replay (c : client) (model_name : string)
    (messages : list pydict) : M (option (list message * list pydict)) :=
  '(converted, output_conv, messages) ← chat_system messages;
  chat_loop c model_name (every_other messages) converted output_conv.

Definition chat_mode (c : client) (model_name : string)
    (messages : list pydict) : M unit :=
  r ← chat_replay c model_name messages;
  match r with
  | None => mret tt
  | Some (_, []) => mret tt
  | Some (_, output_conv) =>
      append_output (dumps (chat_record output_conv) +:+ str1 LF)
  end.

Definition text_record (prompt answer : string) : json :=
  JObj [("text", JStr (prompt +:+ answer))].

Definition completion_mode (c : client) (model_name : string)
    (messages : list pydict) : M unit :=
  let conv := get_conversation_template model_name in
  m0 ← lift (getitem messages 0);
  from ← lift (subscript m0 "from");
  '(conv, messages) ←
    (if eq_str from "system" then
       text ← lift (subscript m0 "text");
       mret (set_system_message conv text, drop 1 messages)
     else mret (conv, messages));
  m0 ← lift (getitem messages 0);
  value ← lift (subscript m0 "value");
  let conv := append_message conv (roles conv).1 (Some value) in
  let conv := append_message conv (roles conv).2 None in
  let prompt := get_prompt conv in
  resp ← try_except (client_completions_create c model_name prompt);
  match resp with
  | Raise e => print (FailedToGenerate e prompt);; close c
  | Ok choices =>
      close c;;
      choice ← lift (getitem choices 0);
      let answer := strip (text choice) in
      append_output (dumps (text_record prompt answer) +:+ str1 LF)
  end.

(** [generate_data(messages, idx)], with the global [api_base_pool] as an
    argument. *)
Definition generate_data (api_base_pool : list url) (messages : list pydict)
    (idx : nat) : M unit :=
  u ← lift (select_base_url api_base_pool idx);
  c ← OpenAI "EMPTY" u None;
  model_name ← try_except (data ← client_models_list c; lift (getitem data 0));
  match model_name with
  | Raise _ => print (CouldNotFetch u)
  | Ok model_name =>
      if chat args then chat_mode c model_name messages
      else completion_mode c model_name messages
  end.

(** *** Module level: probing *)

(** [range(a, b)]. *)
Definition range (a b : Z) : list Z :=
  map (λ i, (a + Z.of_nat i)%Z) (seq 0 (Z.to_nat (b - a))).

(** One iteration of the probing loop. *)
Definition probe_port (api_base_pool : list url) (port : Z) : M (list url) :=
  print (CheckingPort port);;
  r ← try_except
        (c ← OpenAI "EMPTY" (Localhost port) (Some 1);
         data ← client_models_list c;
         match data with
         | [] => mret api_base_pool
         | _ =>
             let api_base_pool := api_base_pool ++ [base_url c] in
             print (BaseUrlModels (base_url c) data);;
             mret api_base_pool
         end);
  match r with
  | Ok api_base_pool => mret api_base_pool
  | Raise _ => mret api_base_pool
  end.

Fixpoint probe_ports (ports : list Z) (api_base_pool : list url)
  : M (list url) :=
  match ports with
  | [] => mret api_base_pool
  | port :: ports' =>
      api_base_pool ← probe_port api_base_pool port;
      probe_ports ports' api_base_pool
  end.

(** *** Module level: resume and dispatch *)

(** The path the script creates when it is missing. *)
Definition file_path : path :=
  ["home"; "nxclab"; "wonjun"; "Medusa"; "ShareGPT_Vicuna_unfiltered";
   "train_shareGPT_llama3.2_1B.jsonl"].

Definition prepare_file_path : M unit :=
  present ← path_exists file_path;
  if (present : bool) then mret tt
  else
    update_fs (λ f, mkdir_parents f (parent file_path));;
    update_fs (λ f, fs_touch f file_path).

(** [start_idx]. *)
Definition resume_offset : M nat :=
  present ← path_exists (output_path args);
  if (present : bool) then
    content ← read_text (output_path args);
    let start_idx := count_lines content in
    print (SkipFirst start_idx);;
    mret start_idx
  else mret 0.

(** The submissions of the list comprehension, in order. *)
Definition submissions (data : list sample) (start_idx : nat) : list task :=
  imap (λ i s, {| task_messages := conversations s;
                  task_idx := i + start_idx |})
       (drop start_idx data).

(** The units run one after the other in submission order, which is the
    schedule of an executor with one worker; what a unit raises stays in
    its future. *)
Fixpoint run_units (api_base_pool : list url) (tasks : list task)
  : M (list (outcome unit)) :=
  match tasks with
  | [] => mret ([] : list (outcome unit))
  | t :: tasks' =>
      r ← try_except (generate_data api_base_pool (task_messages t)
                        (task_idx t));
      rs ← run_units api_base_pool tasks';
      mret (r :: rs)
  end.

(** The script from probing to the end, for an already loaded [data]. *)
Definition main (data : list sample) : M report :=
  api_base_pool ← probe_ports (range 8000 8002) [];
  print (ApiBasePool api_base_pool);;
  prepare_file_path;;
  start_idx ← resume_offset;
  (if bool_decide (num_threads args ≤ 0)%Z then lift (Raise ValueError)
   else mret tt);;
  let tasks := submissions data start_idx in
  results ← run_units api_base_pool tasks;
  mret {| live_pool := api_base_pool; start_idx_of := start_idx;
          submitted := tasks; futures := results |}.

(** The exit code of the interpreter. *)
Definition exit_code {A} (r : outcome A) : Z :=
  match r with
  | Ok _ => 0
  | Raise _ => 1
  end.

(** *** Vocabulary of the properties *)

(** The client a unit builds in world [w] for the backend [u]. *)
Definition unit_client (u : url) (w : world) : client :=
  {| handle := next_handle w; api_key := "EMPTY"; base_url := u;
     timeout := None |}.

(** [m] is a user turn with content [v]. *)
Definition human_turn (m : pydict) (v : json) : Prop :=
  subscript m "from" = Ok (JStr "human") ∧ subscript m "value" = Ok v.

(** [s] is a system turn with text [text]. *)
Definition system_turn (s : pydict) (text : json) : Prop :=
  subscript s "from" = Ok (JStr "system") ∧ subscript s "text" = Ok text.

Definition system_message (text : json) : message :=
  {| role := "system"; content := text |}.

(** How chat mode splits [messages]: the optional leading system turn
    [sys], the context [ctx] it seeds, and the [turns] left to replay. *)
Inductive leading (messages : list pydict)
  : list pydict → list message → list pydict → Prop :=
| leading_empty :
    messages = [] → leading messages [] [] []
| leading_other m rest speaker :
    messages = m :: rest → subscript m "from" = Ok speaker →
    eq_str speaker "system" = false →
    leading messages [] [] messages
| leading_system s text turns :
    messages = s :: turns → system_turn s text →
    leading messages [s] [system_message text] turns.

(** The context entries of completed user/assistant pairs. *)
Fixpoint replayed (vs : list json) (answers : list string) : list message :=
  match vs, answers with
  | v :: vs', a :: answers' =>
      user_message v :: assistant_message a :: replayed vs' answers'
  | _, _ => []
  end.

(** The record entries of completed user/assistant pairs. *)
Fixpoint replayed_out (us : list pydict) (answers : list string)
  : list pydict :=
  match us, answers with
  | u :: us', a :: answers' => u :: gpt_turn a :: replayed_out us' answers'
  | _, _ => []
  end.

(** The chat requests of completed pairs, from the context [ctx] on. *)
Fixpoint chat_requests (c : client) (model_name : string)
    (ctx : list message) (vs : list json) (answers : list string)
  : list request :=
  match vs, answers with
  | v :: vs', a :: answers' =>
      ChatCreate c model_name (ctx ++ [user_message v])
      :: chat_requests c model_name
           (ctx ++ [user_message v; assistant_message a]) vs' answers'
  | _, _ => []
  end.

(** A chat response that completes a turn with the answer [a]. *)
Definition completes (r : outcome (list chat_choice)) (a : string) : Prop :=
  ∃ choice more raw,
    r = Ok (choice :: more) ∧ finish_reason choice ≠ "length"
    ∧ message_content choice = Some raw ∧ a = strip raw.

(** A chat response cut off by the length limit. *)
Definition truncates (r : outcome (list chat_choice)) : Prop :=
  ∃ choice more, r = Ok (choice :: more) ∧ finish_reason choice = "length".

(** From request number [t] and context [ctx] on, the backend completes
    the user turns [vs] one after the other with [answers]. *)
Definition answered (c : client) (model_name : string) (ctx : list message)
    (t : nat) (vs : list json) (answers : list string) : Prop :=
  ∀ j v a, vs !! j = Some v → answers !! j = Some a →
    completes
      (chat_create (t + j) c model_name
         (ctx ++ replayed (take j vs) (take j answers) ++ [user_message v])
         (max_tokens args) (temperature args)) a.

(** The output path can be opened for appending. *)
Definition appendable (f : gmap path node) (p : path) : Prop :=
  (∃ old, stat f p = Some (File old))
  ∨ (stat f p = None ∧ stat f (parent p) = Some Dir).

(** The text of the file at [p], empty when there is none. *)
Definition text_of (f : gmap path node) (p : path) : string :=
  match stat f p with
  | Some (File t) => t
  | _ => EmptyString
  end.

(** The file system after one line is appended to the output file. *)
Definition with_line (f : gmap path node) (line : string)
  : gmap path node :=
  <[output_path args := File (text_of f (output_path args) +:+ line
                              +:+ str1 LF)]> f.

(** No regular file stands where [p] or a directory above it belongs. *)
Definition clear_way (f : gmap path node) (p : path) : Prop :=
  ∀ k c, 0 < k → f !! take k p ≠ Some (File c).

(** From [w] to [w'] nothing happened but requests through clients that
    satisfy [P]. *)
Definition only_requests (P : client → Prop) (w w' : world) : Prop :=
  fs w' = fs w ∧ open_clients w' = open_clients w
  ∧ next_handle w' = next_handle w ∧ stdout w' = stdout w
  ∧ ∃ new, requests w' = requests w ++ new
           ∧ Forall (λ r, P (request_client r)) new.

(** From [w] to [w'] the request log grew by requests through clients
    that satisfy [P]. *)
Definition requests_through (P : client → Prop) (w w' : world) : Prop :=
  ∃ new, requests w' = requests w ++ new
         ∧ Forall (λ r, P (request_client r)) new.

(** From [w] to [w'] the file system is unchanged, or one record line was
    appended to the output file. *)
Definition wrote_at_most_one (w w' : world) : Prop :=
  fs w' = fs w
  ∨ (appendable (fs w) (output_path args)
     ∧ ∃ v, fs w' = with_line (fs w) (dumps v)).

(** The text of the output file in a world. *)
Definition output_text (w : world) : string :=
  text_of (fs w) (output_path args).

(** The lines of a sequence of records. *)
Fixpoint record_lines (records : list json) : string :=
  match records with
  | [] => EmptyString
  | v :: records' => dumps v +:+ str1 LF +:+ record_lines records'
  end.

(** The ways the body of the chat loop raises at the user turn [uk], met
    with the context [ctx] as request number [t]: a key the code reads is
    missing, the response has no choice, or its choice has no content. *)
Inductive raises_at (c : client) (model_name : string) (ctx : list message)
    (t : nat) (uk : pydict) : exn → Prop :=
| raises_no_from :
    subscript uk "from" = Raise (KeyError "from") →
    raises_at c model_name ctx t uk (KeyError "from")
| raises_no_value :
    subscript uk "from" = Ok (JStr "human") →
    subscript uk "value" = Raise (KeyError "value") →
    raises_at c model_name ctx t uk (KeyError "value")
| raises_no_choice v :
    human_turn uk v →
    chat_create t c model_name (ctx ++ [user_message v])
      (max_tokens args) (temperature args) = Ok [] →
    raises_at c model_name ctx t uk IndexError
| raises_no_content v choice more :
    human_turn uk v →
    chat_create t c model_name (ctx ++ [user_message v])
      (max_tokens args) (temperature args) = Ok (choice :: more) →
    finish_reason choice ≠ "length" →
    message_content choice = None →
    raises_at c model_name ctx t uk AttributeError.

(** The client a probe builds in world [w] for [port]. *)
Definition probe_client (port : Z) (w : world) : client :=
  {| handle := next_handle w; api_key := "EMPTY"; base_url := Localhost port;
     timeout := Some 1 |}.

(** A model listing that lets a server into the pool. *)
Definition lists_a_model (r : outcome (list string)) : bool :=
  match r with
  | Ok (_ :: _) => true
  | _ => false
  end.

(** The prompt of completion mode for the first user content [value],
    after an optional system text. *)
Definition completion_prompt (model_name : string) (system : option json)
    (value : json) : string :=
  let conv := get_conversation_template model_name in
  let conv := match system with
              | Some text => set_system_message conv text
              | None => conv
              end in
  let conv := append_message conv (roles conv).1 (Some value) in
  let conv := append_message conv (roles conv).2 None in
  get_prompt conv.

(** How completion mode reads [messages]: an optional system text and the
    content of the turn that follows. *)
Inductive completion_input (messages : list pydict)
  : option json → json → Prop :=
| completion_plain m rest speaker value :
    messages = m :: rest → subscript m "from" = Ok speaker →
    eq_str speaker "system" = false → subscript m "value" = Ok value →
    completion_input messages None value
| completion_system s m rest text value :
    messages = s :: m :: rest → system_turn s text →
    subscript m "value" = Ok value →
    completion_input messages (Some text) value.

(** ** Properties *)

(** *** The monad *)

Lemma bind_ok {A B} (m : M A) (f : A → M B) w a w' :
  m w = (Ok a, w') → (m ≫= f) w = f a w'.
Proof. intros E. unfold mbind, M_bind. now rewrite E. Qed.

Lemma bind_raise {A B} (m : M A) (f : A → M B) w e w' :
  m w = (Raise e, w') → (m ≫= f) w = (Raise e, w').
Proof. intros E. unfold mbind, M_bind. now rewrite E. Qed.

Lemma bind_lift {A B} (o : outcome A) (f : A → M B) w :
  (lift o ≫= f) w = match o with
                    | Ok a => f a w
                    | Raise e => (Raise e, w)
                    end.
Proof. destruct o; reflexivity. Qed.

Lemma try_except_run {A} (m : M A) w :
  try_except m w = (Ok (m w).1, (m w).2).
Proof. unfold try_except. now destruct (m w). Qed.

(** *** What a unit leaves untouched *)

Lemma only_requests_refl P w : only_requests P w w.
Proof.
  repeat split; exists []; split; [now rewrite app_nil_r | constructor].
Qed.

Lemma only_requests_trans P w1 w2 w3 :
  only_requests P w1 w2 → only_requests P w2 w3 → only_requests P w1 w3.
Proof.
  intros (F1 & O1 & N1 & S1 & n1 & R1 & A1) (F2 & O2 & N2 & S2 & n2 & R2 & A2).
  repeat split; try congruence.
  exists (n1 ++ n2). split.
  - now rewrite R2, R1, app_assoc.
  - now apply Forall_app.
Qed.

Lemma only_requests_log (P : client → Prop) r w :
  P (request_client r) → only_requests P w (log_request r w).
Proof.
  intros H. repeat split. exists [r]. split; [reflexivity | now repeat constructor].
Qed.

Lemma chat_loop_only_requests (P : client → Prop) c model_name ms :
  P c → ∀ converted output_conv w,
    only_requests P w (chat_loop c model_name ms converted output_conv w).2.
Proof.
  intros HP. induction ms as [|m ms' IH]; intros converted output_conv w.
  - apply only_requests_refl.
  - cbn [chat_loop]. rewrite bind_lift.
    destruct (subscript m "from") as [from|e]; [|apply only_requests_refl].
    destruct (negb (eq_str from "human")); [apply only_requests_refl|].
    rewrite bind_lift.
    destruct (subscript m "value") as [value|e]; [|apply only_requests_refl].
    set (conv := converted ++ [user_message value]).
    set (w1 := log_request (ChatCreate c model_name conv) w).
    assert (H1 : only_requests P w w1) by now apply only_requests_log.
    unfold mbind at 1, M_bind at 1, try_except, chat_completions_create.
    fold w1.
    destruct (chat_create _ c model_name conv _ _) as [choices|e];
      [|exact H1].
    rewrite bind_lift.
    destruct (getitem choices 0) as [choice|e]; [|exact H1].
    destruct (String.eqb (finish_reason choice) "length"); [exact H1|].
    rewrite bind_lift.
    destruct (message_content choice) as [s|]; [|exact H1].
    eapply only_requests_trans; [exact H1|apply IH].
Qed.

(** *** The request log and the output file *)

Lemma log_requests_nil w : log_requests [] w = w.
Proof. destruct w. unfold log_requests. cbn. now rewrite app_nil_r. Qed.

Lemma log_requests_app rs1 rs2 w :
  log_requests rs2 (log_requests rs1 w) = log_requests (rs1 ++ rs2) w.
Proof. unfold log_requests. cbn. now rewrite app_assoc. Qed.

Lemma fs_append_ok f p line :
  appendable f p →
  fs_append f p line = Ok (<[p := File (text_of f p +:+ line)]> f).
Proof.
  unfold appendable, fs_append, text_of, create_at.
  intros [[old E] | [E Ep]]; rewrite E; [reflexivity|].
  now rewrite Ep.
Qed.

Lemma append_output_ok line w :
  appendable (fs w) (output_path args) →
  append_output (line +:+ str1 LF) w = (Ok tt, set_fs (with_line (fs w) line) w).
Proof.
  intros H. unfold append_output, update_fs.
  now rewrite (fs_append_ok _ _ _ H).
Qed.

(** *** The leading system turn *)

Lemma chat_system_leading messages sys ctx turns w :
  leading messages sys ctx turns →
  chat_system messages w = (Ok (ctx, sys, turns), w).
Proof.
  intros [-> | m rest speaker -> Hf Hs | s text turns' -> [Hf Ht]].
  - reflexivity.
  - unfold chat_system. rewrite bind_lift, Hf, Hs. reflexivity.
  - unfold chat_system. rewrite bind_lift, Hf. cbn.
    rewrite bind_lift, Ht. reflexivity.
Qed.

(** *** Walking the loop *)

Lemma answered_tail c model_name ctx t v vs a answers :
  answered c model_name ctx t (v :: vs) (a :: answers) →
  answered c model_name (ctx ++ [user_message v; assistant_message a])
    (S t) vs answers.
Proof.
  intros H j v' a' Hv Ha.
  specialize (H (S j) v' a' Hv Ha).
  cbn [take replayed] in H.
  replace (S t + j) with (t + S j) by lia.
  now rewrite <- app_assoc.
Qed.

(** The loop goes through a stretch of completed turns. *)
Lemma chat_loop_replay c model_name us :
  ∀ vs answers ms converted output_conv w,
    Forall2 human_turn us vs →
    length answers = length us →
    answered c model_name converted (length (requests w)) vs answers →
    chat_loop c model_name (us ++ ms) converted output_conv w
    = chat_loop c model_name ms
        (converted ++ replayed vs answers)
        (output_conv ++ replayed_out us answers)
        (log_requests (chat_requests c model_name converted vs answers) w).
Proof.
  induction us as [|u us' IH];
    intros vs answers ms converted output_conv w HF Hlen Hans.
  - inversion HF; subst. destruct answers; [|discriminate].
    cbn. now rewrite !app_nil_r, log_requests_nil.
  - inversion HF as [|? v ? vs' [Hfrom Hval] HF']; subst.
    destruct answers as [|a answers']; [discriminate|].
    injection Hlen as Hlen.
    destruct (Hans 0 v a eq_refl eq_refl)
      as (choice & more & raw & Hresp & Hfin & Hcontent & ->).
    cbn [take replayed] in Hresp. rewrite Nat.add_0_r in Hresp.
    cbn [app chat_loop]. rewrite bind_lift, Hfrom. cbn [eq_str].
    change (String.eqb "human" "human") with true. cbn [negb].
    rewrite bind_lift, Hval.
    unfold mbind at 1, M_bind at 1, try_except, chat_completions_create.
    cbn [app] in Hresp. rewrite Hresp.
    rewrite bind_lift. cbn [getitem lookup list_lookup].
    apply String.eqb_neq in Hfin. rewrite Hfin.
    rewrite bind_lift, Hcontent.
    rewrite <- (app_assoc converted [user_message v]). cbn [app].
    rewrite IH with (vs := vs') (answers := answers'); try assumption.
    + cbn [replayed replayed_out chat_requests].
      unfold log_request. rewrite log_requests_app.
      rewrite <- !app_assoc. reflexivity.
    + unfold log_request. cbn [log_requests requests].
      rewrite length_app. cbn [length].
      replace (length (requests w) + 1) with (S (length (requests w))) by lia.
      now apply answered_tail.
Qed.

(** The three ways out of the loop at a user turn. *)

Lemma chat_loop_truncated c model_name uk vk rest converted output_conv w :
  human_turn uk vk →
  truncates (chat_create (length (requests w)) c model_name
               (converted ++ [user_message vk])
               (max_tokens args) (temperature args)) →
  chat_loop c model_name (uk :: rest) converted output_conv w
  = (Ok (Some (converted ++ [user_message vk], output_conv)),
     log_request (ChatCreate c model_name (converted ++ [user_message vk])) w).
Proof.
  intros [Hfrom Hval] (choice & more & Hresp & Hfin).
  cbn [chat_loop]. rewrite bind_lift, Hfrom. cbn [eq_str].
  change (String.eqb "human" "human") with true. cbn [negb].
  rewrite bind_lift, Hval.
  unfold mbind at 1, M_bind at 1, try_except, chat_completions_create.
  rewrite Hresp, bind_lift. cbn [getitem lookup list_lookup].
  rewrite Hfin. reflexivity.
Qed.

Lemma chat_loop_failed c model_name uk vk rest converted output_conv w e :
  human_turn uk vk →
  chat_create (length (requests w)) c model_name
    (converted ++ [user_message vk]) (max_tokens args) (temperature args)
  = Raise e →
  chat_loop c model_name (uk :: rest) converted output_conv w
  = (Ok (Some (converted ++ [user_message vk], output_conv)),
     log_request (ChatCreate c model_name (converted ++ [user_message vk])) w).
Proof.
  intros [Hfrom Hval] Hresp.
  cbn [chat_loop]. rewrite bind_lift, Hfrom. cbn [eq_str].
  change (String.eqb "human" "human") with true. cbn [negb].
  rewrite bind_lift, Hval.
  unfold mbind at 1, M_bind at 1, try_except, chat_completions_create.
  rewrite Hresp. reflexivity.
Qed.

Lemma chat_loop_malformed c model_name uk speaker rest converted output_conv w :
  subscript uk "from" = Ok speaker → eq_str speaker "human" = false →
  chat_loop c model_name (uk :: rest) converted output_conv w = (Ok None, w).
Proof.
  intros Hfrom Hs. cbn [chat_loop]. rewrite bind_lift, Hfrom, Hs. reflexivity.
Qed.

(** *** From the unit to its mode *)

Lemma generate_data_listed pool messages idx u w model_name others :
  select_base_url pool idx = Ok u →
  models_list (length (requests w)) (unit_client u w)
  = Ok (model_name :: others) →
  generate_data pool messages idx w
  = (if chat args then chat_mode (unit_client u w) model_name messages
     else completion_mode (unit_client u w) model_name messages)
      (log_request (ModelsList (unit_client u w)) (new_client w)).
Proof.
  intros Hsel Hlist. unfold generate_data.
  rewrite bind_lift, Hsel.
  unfold mbind at 1, M_bind at 1, OpenAI. fold (unit_client u w).
  unfold mbind at 1, M_bind at 1, try_except.
  unfold mbind at 1, M_bind at 1, client_models_list.
  cbn [requests new_client]. rewrite Hlist.
  reflexivity.
Qed.

Lemma chat_mode_done c model_name messages w converted output_conv w2 :
  chat_replay c model_name messages w
  = (Ok (Some (converted, output_conv)), w2) →
  appendable (fs w2) (output_path args) →
  chat_mode c model_name messages w
  = (Ok tt,
     match output_conv with
     | [] => w2
     | _ => set_fs (with_line (fs w2) (dumps (chat_record output_conv))) w2
     end).
Proof.
  intros Hrun Happ. unfold chat_mode.
  rewrite (bind_ok _ _ _ _ _ Hrun).
  destruct output_conv as [|o output_conv']; [reflexivity|].
  now apply append_output_ok.
Qed.

Lemma chat_mode_returned c model_name messages w w2 :
  chat_replay c model_name messages w = (Ok None, w2) →
  chat_mode c model_name messages w = (Ok tt, w2).
Proof. intros Hrun. unfold chat_mode. now rewrite (bind_ok _ _ _ _ _ Hrun). Qed.

Lemma chat_replay_leading c model_name messages sys ctx turns w :
  leading messages sys ctx turns →
  chat_replay c model_name messages w
  = chat_loop c model_name (every_other turns) ctx sys w.
Proof.
  intros H. unfold chat_replay.
  now rewrite (bind_ok _ _ _ _ _ (chat_system_leading _ _ _ _ w H)).
Qed.

(** *** Chat mode: truncation *)

(** C4.  Chat-mode truncation.  A sample is split into its optional leading
    system turn [sys] and the [turns] to replay, whose user turns are
    [us ++ uk :: rest].  If the backend completes the k-1 user turns [us]
    with [answers] and cuts the response to the k-th user turn [uk] at the
    length limit, the loop stops there: the context holds the completed
    pairs and the k-th user turn but no entry for the cut response, the
    record is the system turn (if any) followed by the k-1 completed
    user/assistant pairs, and that record, unless it is empty, is the one
    line the unit appends. *)
Theorem chat_truncation_keeps_completed_pairs
    pool idx u w model_name others messages sys ctx turns
    us uk rest vs vk answers :
  let c := unit_client u w in
  let t := length (requests w) in
  let converted := ctx ++ replayed vs answers ++ [user_message vk] in
  let output_conv := sys ++ replayed_out us answers in
  chat args = true →
  select_base_url pool idx = Ok u →
  models_list t c = Ok (model_name :: others) →
  appendable (fs w) (output_path args) →
  leading messages sys ctx turns →
  every_other turns = us ++ uk :: rest →
  Forall2 human_turn us vs →
  human_turn uk vk →
  length answers = length us →
  answered c model_name ctx (S t) vs answers →
  truncates (chat_create (S t + length us) c model_name converted
               (max_tokens args) (temperature args)) →
  ∃ w2 w',
    chat_loop c model_name (every_other turns) ctx sys
      (log_request (ModelsList c) (new_client w))
    = (Ok (Some (converted, output_conv)), w2)
    ∧ requests w2
      = requests w ++ ModelsList c
          :: chat_requests c model_name ctx vs answers
          ++ [ChatCreate c model_name converted]
    ∧ generate_data pool messages idx w = (Ok tt, w')
    ∧ fs w' = match output_conv with
              | [] => fs w
              | _ => with_line (fs w) (dumps (chat_record output_conv))
              end.
Proof.
  intros c t converted output_conv Hchat Hsel Hlist Happ Hlead Hturns
    Hus Huk Hlen Hans Htrunc.
  set (w1 := log_request (ModelsList c) (new_client w)).
  assert (Ht1 : length (requests w1) = S t).
  { unfold w1, log_request. cbn. rewrite length_app. cbn. unfold t. lia. }
  assert (Hloop :
    chat_loop c model_name (every_other turns) ctx sys w1
    = (Ok (Some (converted, output_conv)),
       log_request (ChatCreate c model_name converted)
         (log_requests (chat_requests c model_name ctx vs answers) w1))).
  { rewrite Hturns.
    rewrite chat_loop_replay with (vs := vs) (answers := answers);
      [|assumption|assumption|now rewrite Ht1].
    rewrite chat_loop_truncated with (vk := vk); [|assumption|].
    - unfold converted. now rewrite <- app_assoc.
    - cbn [log_requests requests]. rewrite length_app, Ht1.
      assert (Hn : length (chat_requests c model_name ctx vs answers)
                   = length us).
      { clear - Hus Hlen. revert ctx answers Hlen.
        induction Hus as [|u0 v0 us0 vs0 _ _ IH]; intros ctx [|a answers] Hl;
          try discriminate; [reflexivity|].
        cbn. f_equal. apply IH. now injection Hl. }
      rewrite Hn, <- app_assoc. exact Htrunc. }
  eexists _, _. split; [exact Hloop|]. split.
  { unfold w1, log_request. cbn. rewrite <- !app_assoc. reflexivity. }
  rewrite (generate_data_listed _ _ _ _ _ _ _ Hsel Hlist), Hchat.
  fold c. fold w1.
  rewrite chat_mode_done with (converted := converted)
                              (output_conv := output_conv)
                              (w2 := log_request (ChatCreate c model_name converted)
         (log_requests (chat_requests c model_name ctx vs answers) w1)).
  - split; [reflexivity|]. destruct output_conv; reflexivity.
  - now rewrite (chat_replay_leading _ _ _ _ _ _ _ Hlead).
  - exact Happ.
Qed.

(** *** Chat mode: a turn with the wrong speaker *)

(** C5 (amended).  Malformed sample.  If the backend completes the user
    turns [us] that come before it, and the turn [uk] at the next
    expected-user position carries a speaker other than human, the unit
    returns without an error and without writing anything, whatever was
    completed before; the only requests it made are the model listing and
    the chat requests of the completed turns. *)
Theorem malformed_turn_writes_nothing
    pool idx u w model_name others messages sys ctx turns
    us uk rest vs answers speaker :
  let c := unit_client u w in
  let t := length (requests w) in
  chat args = true →
  select_base_url pool idx = Ok u →
  models_list t c = Ok (model_name :: others) →
  leading messages sys ctx turns →
  every_other turns = us ++ uk :: rest →
  Forall2 human_turn us vs →
  length answers = length us →
  answered c model_name ctx (S t) vs answers →
  subscript uk "from" = Ok speaker →
  eq_str speaker "human" = false →
  ∃ w',
    generate_data pool messages idx w = (Ok tt, w')
    ∧ fs w' = fs w
    ∧ requests w'
      = requests w ++ ModelsList c :: chat_requests c model_name ctx vs answers.
Proof.
  intros c t Hchat Hsel Hlist Hlead Hturns Hus Hlen Hans Hfrom Hspeaker.
  set (w1 := log_request (ModelsList c) (new_client w)).
  assert (Ht1 : length (requests w1) = S t).
  { unfold w1, log_request. cbn. rewrite length_app. cbn. unfold t. lia. }
  rewrite (generate_data_listed _ _ _ _ _ _ _ Hsel Hlist), Hchat.
  fold c. fold w1.
  eexists. split.
  - apply chat_mode_returned.
    rewrite (chat_replay_leading _ _ _ _ _ _ _ Hlead), Hturns.
    rewrite chat_loop_replay with (vs := vs) (answers := answers);
      [|assumption|assumption|now rewrite Ht1].
    now apply chat_loop_malformed with (speaker := speaker).
  - split; [reflexivity|].
    unfold w1, log_request. cbn. now rewrite <- app_assoc.
Qed.

(** *** Chat mode: when a record is written *)

Lemma append_nonempty s t : s +:+ t = s → t = EmptyString.
Proof.
  induction s as [|a s IH]; cbn; [easy|]. intros H. injection H as H. auto.
Qed.

Lemma with_line_changes f line :
  appendable f (output_path args) → with_line f line ≠ f.
Proof.
  intros Happ Heq. unfold with_line in Heq.
  assert (Hl : f !! output_path args
               = Some (File (text_of f (output_path args) +:+ line
                             +:+ str1 LF))).
  { rewrite <- Heq at 1. apply lookup_insert_eq. }
  unfold appendable, text_of, stat in *.
  destruct (output_path args) as [|p0 ps] eqn:Ep.
  - destruct Happ as [[old H]|[H _]]; discriminate.
  - destruct Happ as [[old H]|[H _]]; rewrite H in Hl; [|discriminate].
    injection Hl as Hl. symmetry in Hl. apply append_nonempty in Hl.
    destruct line; discriminate.
Qed.

Lemma chat_system_world messages w : (chat_system messages w).2 = w.
Proof.
  unfold chat_system. destruct messages as [|m0 rest]; [reflexivity|].
  rewrite bind_lift. destruct (subscript m0 "from") as [from|e]; [|reflexivity].
  destruct (eq_str from "system"); [|reflexivity].
  rewrite bind_lift. now destruct (subscript m0 "text").
Qed.

Lemma chat_replay_only_requests (P : client → Prop) c model_name messages w :
  P c → only_requests P w (chat_replay c model_name messages w).2.
Proof.
  intros HP. unfold chat_replay, mbind, M_bind.
  pose proof (chat_system_world messages w) as Hw.
  destruct (chat_system messages w) as [[[[converted output_conv] ms]|e] w0];
    cbn in Hw; subst w0.
  - now apply chat_loop_only_requests.
  - apply only_requests_refl.
Qed.


(** *** Chat mode: the end-to-end example *)

(** C9.  End-to-end chat example.  In chat mode, for the sample
    [be_terse_sample] (system turn, user turn, assistant turn without
    content) and a backend that answers the chat request with the text 4 and
    the finish reason stop, the unit appends exactly the line
    [be_terse_line] to the output file. *)
Theorem be_terse_appends_expected_line
    pool idx u w model_name others :
  let c := unit_client u w in
  let t := length (requests w) in
  chat args = true →
  select_base_url pool idx = Ok u →
  models_list t c = Ok (model_name :: others) →
  appendable (fs w) (output_path args) →
  chat_create (S t) c model_name
    [system_message (JStr "be terse"); user_message (JStr "2+2?")]
    (max_tokens args) (temperature args) = Ok four_stop →
  ∃ w',
    generate_data pool be_terse_sample idx w = (Ok tt, w')
    ∧ fs w' = <[output_path args :=
                  File (text_of (fs w) (output_path args)
                        +:+ be_terse_line +:+ str1 LF)]> (fs w).
Proof.
  intros c t Hchat Hsel Hlist Happ Hresp.
  set (w1 := log_request (ModelsList c) (new_client w)).
  assert (Ht1 : length (requests w1) = S t).
  { unfold w1, log_request. cbn. rewrite length_app. cbn. unfold t. lia. }
  set (s := [("from", JStr "system"); ("text", JStr "be terse")] : pydict).
  set (m := [("from", JStr "human"); ("value", JStr "2+2?")] : pydict).
  set (a := [("from", JStr "gpt"); ("value", JNull)] : pydict).
  assert (Hlead : leading be_terse_sample [s]
                    [system_message (JStr "be terse")] [m; a]).
  { apply leading_system; [reflexivity|]. split; reflexivity. }
  assert (Hrun :
    chat_replay c model_name be_terse_sample w1
    = (Ok (Some ([system_message (JStr "be terse")]
                 ++ replayed [JStr "2+2?"] ["4"],
                 [s] ++ replayed_out [m] ["4"])),
       log_requests
         (chat_requests c model_name [system_message (JStr "be terse")]
            [JStr "2+2?"] ["4"]) w1)).
  { rewrite (chat_replay_leading _ _ _ _ _ _ _ Hlead).
    change (every_other [m; a]) with ([m] ++ []).
    rewrite chat_loop_replay with (vs := [JStr "2+2?"]) (answers := ["4"]).
    - reflexivity.
    - repeat constructor.
    - reflexivity.
    - intros [|j] v ans Hv Ha; cbn in Hv, Ha; [|discriminate].
      injection Hv as <-. injection Ha as <-.
      rewrite Ht1, Nat.add_0_r. cbn [take replayed app].
      rewrite Hresp. exists {| finish_reason := "stop"; message_content := Some "4" |}, [], "4".
      repeat split; [discriminate]. }
  rewrite (generate_data_listed _ _ _ _ _ _ _ Hsel Hlist), Hchat.
  fold c. fold w1.
  rewrite (chat_mode_done _ _ _ _ _ _ _ Hrun) by exact Happ.
  eexists. split; reflexivity.
Qed.

(** *** The empty sample *)

(** C10.  Empty sample.  For a sample without turns, once the backend is
    selected and the model listing has succeeded: in chat mode the unit
    returns without an error and writes nothing; in completion mode the
    unit stops with [IndexError] at the first turn, having written nothing
    and made no generation request (the model listing is the only request
    in either mode). *)
Theorem empty_sample_by_mode pool idx u w model_name others :
  let c := unit_client u w in
  select_base_url pool idx = Ok u →
  models_list (length (requests w)) c = Ok (model_name :: others) →
  ∃ w',
    fs w' = fs w
    ∧ requests w' = requests w ++ [ModelsList c]
    ∧ (chat args = true → generate_data pool [] idx w = (Ok tt, w'))
    ∧ (chat args = false →
       generate_data pool [] idx w = (Raise IndexError, w')).
Proof.
  intros c Hsel Hlist.
  exists (log_request (ModelsList c) (new_client w)).
  split; [reflexivity|]. split; [reflexivity|].
  rewrite (generate_data_listed _ _ _ _ _ _ _ Hsel Hlist). fold c.
  split; intros ->; reflexivity.
Qed.

(** *** Creating directories *)

Lemma mkdir_from_spec rest :
  ∀ f done,
    (∀ k c, 0 < k → f !! (done ++ take k rest) ≠ Some (File c)) →
    ∃ f', mkdir_from f done rest = Ok f'
          ∧ f ⊆ f'
          ∧ (∀ q, length done + length rest < length q → f' !! q = f !! q)
          ∧ (rest ≠ [] → f' !! (done ++ rest) = Some Dir).
Proof.
  induction rest as [|c rest' IH]; intros f done Hclear.
  - exists f. repeat split; [reflexivity|easy].
  - cbn [mkdir_from].
    assert (Hshift : ∀ k, (done ++ [c]) ++ take k rest'
                          = done ++ take (S k) (c :: rest')).
    { intros k. now rewrite <- app_assoc. }
    assert (Hlast : rest' = [] → done ++ c :: rest' = done ++ [c]).
    { now intros ->. }
    destruct (f !! (done ++ [c])) as [[|content]|] eqn:E.
    + destruct (IH f (done ++ [c])) as (f' & Hrun & Hsub & Hfar & Hdir).
      { intros k c0 Hk. rewrite Hshift. apply Hclear. lia. }
      exists f'. rewrite Hrun. repeat split; [assumption| |].
      * intros q Hq. apply Hfar. rewrite length_app. cbn in *. lia.
      * intros _. destruct rest' as [|c' rest''].
        -- cbn in Hrun. injection Hrun as <-. exact E.
        -- rewrite <- Hdir by discriminate. now rewrite <- app_assoc.
    + exfalso. apply (Hclear 1 content); [lia|]. exact E.
    + destruct (IH (<[done ++ [c] := Dir]> f) (done ++ [c]))
        as (f' & Hrun & Hsub & Hfar & Hdir).
      { intros k c0 Hk. rewrite lookup_insert.
        case_decide; [discriminate|].
        rewrite Hshift. apply Hclear. lia. }
      exists f'. rewrite Hrun. repeat split.
      * etrans; [|exact Hsub]. now apply insert_subseteq.
      * intros q Hq. rewrite Hfar by (rewrite length_app; cbn in *; lia).
        apply lookup_insert_ne. intros <-. rewrite length_app in Hq.
        cbn in Hq. lia.
      * intros _. destruct rest' as [|c' rest''].
        -- cbn in Hrun. injection Hrun as <-. apply lookup_insert_eq.
        -- rewrite <- Hdir by discriminate. now rewrite <- app_assoc.
Qed.

Lemma set_fs_same w : set_fs (fs w) w = w.
Proof. now destruct w. Qed.

(** Preparing the hard-coded path succeeds when the way is clear; it only
    adds entries. *)
Lemma prepare_file_path_spec w :
  clear_way (fs w) (parent file_path) →
  ∃ f', prepare_file_path w = (Ok tt, set_fs f' w) ∧ fs w ⊆ f'.
Proof.
  intros Hclear. unfold prepare_file_path.
  unfold mbind at 1, M_bind at 1, path_exists.
  case_bool_decide as Hex.
  - exists (fs w). now rewrite set_fs_same.
  - assert (Habsent : fs w !! file_path = None).
    { destruct (fs w !! file_path) eqn:E; [|reflexivity].
      exfalso. apply Hex. unfold stat, file_path. unfold file_path in E.
      rewrite E. eauto. }
    destruct (mkdir_from_spec (parent file_path) (fs w) [])
      as (f1 & Hrun & Hsub & Hfar & Hdir).
    { intros k c Hk. cbn [app]. now apply Hclear. }
    assert (Habsent1 : f1 !! file_path = None).
    { rewrite Hfar; [exact Habsent|]. cbn. lia. }
    exists (<[file_path := File EmptyString]> f1). split.
    + unfold mbind, M_bind, update_fs, mkdir_parents. rewrite Hrun.
      cbn [fs set_fs]. unfold fs_touch, create_at.
      change (stat f1 file_path) with (f1 !! file_path). rewrite Habsent1.
      change (stat f1 (parent file_path)) with (f1 !! ([] ++ parent file_path)).
      rewrite Hdir by discriminate. reflexivity.
    + etrans; [exact Hsub|]. now apply insert_subseteq.
Qed.

(** *** Probing *)

Lemma probe_port_fs pool port w :
  ∃ pool' w', probe_port pool port w = (Ok pool', w') ∧ fs w' = fs w.
Proof.
  unfold probe_port, mbind, M_bind, print, try_except, OpenAI,
    client_models_list.
  cbn. destruct (models_list _ _) as [[|id ids]|e]; cbn; eauto.
Qed.

Lemma probe_ports_fs ports :
  ∀ pool w,
    ∃ pool' w', probe_ports ports pool w = (Ok pool', w') ∧ fs w' = fs w.
Proof.
  induction ports as [|port ports' IH]; intros pool w.
  - cbn. eauto.
  - cbn [probe_ports].
    destruct (probe_port_fs pool port w) as (pool1 & w1 & Hrun & Hfs).
    rewrite (bind_ok _ _ _ _ _ Hrun).
    destruct (IH pool1 w1) as (pool2 & w2 & Hrun2 & Hfs2).
    exists pool2, w2. split; [exact Hrun2|congruence].
Qed.

(** *** Dispatch *)

Lemma run_units_total pool tasks :
  ∀ w, ∃ rs w', run_units pool tasks w = (Ok rs, w')
                ∧ length rs = length tasks.
Proof.
  induction tasks as [|t tasks' IH]; intros w.
  - exists [], w. split; reflexivity.
  - cbn [run_units]. unfold mbind at 1, M_bind at 1.
    rewrite try_except_run.
    destruct (IH (generate_data pool (task_messages t) (task_idx t) w).2)
      as (rs & w' & Hrun & Hlen).
    rewrite (bind_ok _ _ _ _ _ Hrun).
    eexists _, _. split; [reflexivity|]. cbn. now rewrite Hlen.
Qed.

Lemma main_steps data w pool w1 w2 start w3 rs w4 :
  probe_ports (range 8000 8002) [] w = (Ok pool, w1) →
  prepare_file_path (add_stdout (ApiBasePool pool) w1) = (Ok tt, w2) →
  resume_offset w2 = (Ok start, w3) →
  (0 < num_threads args)%Z →
  run_units pool (submissions data start) w3 = (Ok rs, w4) →
  main data w
  = (Ok {| live_pool := pool; start_idx_of := start;
           submitted := submissions data start; futures := rs |}, w4).
Proof.
  intros Hprobe Hprep Hres Hthreads Hrun. unfold main.
  rewrite (bind_ok _ _ _ _ _ Hprobe).
  unfold mbind at 1, M_bind at 1, print.
  rewrite (bind_ok _ _ _ _ _ Hprep).
  rewrite (bind_ok _ _ _ _ _ Hres).
  rewrite bool_decide_eq_false_2 by lia.
  unfold mbind at 1, M_bind at 1, mret at 1, M_ret at 1.
  now rewrite (bind_ok _ _ _ _ _ Hrun).
Qed.

(** *** The submissions *)

Lemma submissions_lookup data start_idx j :
  submissions data start_idx !! j
  = (λ s, {| task_messages := conversations s;
             task_idx := j + start_idx |}) <$> data !! (start_idx + j).
Proof.
  unfold submissions. rewrite list_lookup_imap, lookup_drop.
  now destruct (data !! (start_idx + j)).
Qed.

Lemma submissions_length data start_idx :
  length (submissions data start_idx) = length data - start_idx.
Proof. unfold submissions. now rewrite length_imap, length_drop. Qed.

Lemma submissions_messages data start_idx :
  task_messages <$> submissions data start_idx
  = conversations <$> drop start_idx data.
Proof.
  apply list_eq. intros j.
  rewrite !list_lookup_fmap, submissions_lookup, lookup_drop.
  now destruct (data !! (start_idx + j)).
Qed.

Lemma submissions_indices data start_idx :
  task_idx <$> submissions data start_idx
  = seq start_idx (length data - start_idx).
Proof.
  apply list_eq. intros j.
  rewrite list_lookup_fmap, submissions_lookup.
  destruct (data !! (start_idx + j)) as [s|] eqn:E; cbn.
  - apply lookup_lt_Some in E.
    rewrite lookup_seq_lt by lia. f_equal. lia.
  - apply lookup_ge_None in E. symmetry. apply lookup_seq_ge. lia.
Qed.

Lemma resume_offset_existing w content :
  stat (fs w) (output_path args) = Some (File content) →
  resume_offset w
  = (Ok (count_lines content), add_stdout (SkipFirst (count_lines content)) w).
Proof.
  intros Hstat. unfold resume_offset.
  unfold mbind at 1, M_bind at 1, path_exists.
  rewrite bool_decide_eq_true_2 by (rewrite Hstat; eauto).
  unfold mbind at 1, M_bind at 1, read_text, fs_read. rewrite Hstat.
  reflexivity.
Qed.

Lemma resume_offset_missing w :
  stat (fs w) (output_path args) = None →
  resume_offset w = (Ok 0, w).
Proof.
  intros Hstat. unfold resume_offset.
  unfold mbind at 1, M_bind at 1, path_exists.
  rewrite bool_decide_eq_false_2; [reflexivity|].
  rewrite Hstat. now intros [? ?].
Qed.

(** *** The requests of a unit *)

Lemma requests_through_refl P w w' :
  requests w' = requests w → requests_through P w w'.
Proof.
  intros H. exists []. split; [now rewrite app_nil_r|constructor].
Qed.

Lemma requests_through_trans P w1 w2 w3 :
  requests_through P w1 w2 → requests_through P w2 w3 →
  requests_through P w1 w3.
Proof.
  intros (n1 & R1 & A1) (n2 & R2 & A2). exists (n1 ++ n2). split.
  - now rewrite R2, R1, app_assoc.
  - now apply Forall_app.
Qed.

Lemma only_requests_through P w w' :
  only_requests P w w' → requests_through P w w'.
Proof. now intros (_ & _ & _ & _ & H). Qed.

Lemma requests_through_log (P : client → Prop) r w :
  P (request_client r) → requests_through P w (log_request r w).
Proof. intros H. apply only_requests_through. now apply only_requests_log. Qed.

Lemma chat_mode_requests (P : client → Prop) c model_name messages w :
  P c → requests_through P w (chat_mode c model_name messages w).2.
Proof.
  intros HP. unfold chat_mode, mbind, M_bind.
  pose proof (chat_replay_only_requests P c model_name messages w HP) as H.
  apply only_requests_through in H.
  destruct (chat_replay c model_name messages w)
    as [[[[converted [|o output_conv]]|]|e] w0]; cbn [snd] in *; try exact H.
  eapply requests_through_trans; [exact H|].
  apply requests_through_refl.
  unfold append_output, update_fs. now destruct (fs_append _ _ _).
Qed.

Lemma completion_mode_requests (P : client → Prop) c model_name messages w :
  P c → requests_through P w (completion_mode c model_name messages w).2.
Proof.
  intros HP. unfold completion_mode.
  rewrite bind_lift.
  destruct (getitem messages 0) as [m0|e];
    [|now apply requests_through_refl].
  rewrite bind_lift.
  destruct (subscript m0 "from") as [from|e];
    [|now apply requests_through_refl].
  assert (Hrest : ∀ conv ms w,
    requests_through P w
      ((m1 ← lift (getitem ms 0);
        value ← lift (subscript m1 "value");
        let conv0 := append_message conv (roles conv).1 (Some value) in
        let conv1 := append_message conv0 (roles conv0).2 None in
        let prompt := get_prompt conv1 in
        resp ← try_except (client_completions_create c model_name prompt);
        match resp with
        | Raise e => print (FailedToGenerate e prompt);; close c
        | Ok choices =>
            close c;;
            choice ← lift (getitem choices 0);
            let answer := strip (text choice) in
            append_output (dumps (text_record prompt answer) +:+ str1 LF)
        end) w).2).
  { clear - HP. intros conv ms w. rewrite bind_lift.
    destruct (getitem ms 0) as [m1|e]; [|now apply requests_through_refl].
    rewrite bind_lift.
    destruct (subscript m1 "value") as [value|e];
      [|now apply requests_through_refl].
    cbv zeta.
    unfold mbind at 1, M_bind at 1, try_except, client_completions_create.
    set (prompt := get_prompt _).
    exists [CompletionCreate c model_name prompt].
    split; [|now repeat constructor].
    destruct (completions_create _ _ _ _ _ _) as [choices|e]; [|reflexivity].
    unfold mbind, M_bind, close, lift, append_output, update_fs. cbn.
    destruct (getitem choices 0); [|reflexivity].
    now destruct (fs_append _ _ _). }
  unfold mbind at 1, M_bind at 1.
  destruct (eq_str from "system").
  - rewrite bind_lift.
    destruct (subscript m0 "text") as [text|e];
      [|now apply requests_through_refl].
    apply Hrest.
  - apply Hrest.
Qed.

Lemma generate_data_requests pool messages idx u w :
  select_base_url pool idx = Ok u →
  ∃ more,
    requests (generate_data pool messages idx w).2
    = requests w ++ ModelsList (unit_client u w) :: more
    ∧ Forall (λ r, request_client r = unit_client u w) more.
Proof.
  intros Hsel.
  set (c := unit_client u w).
  set (w1 := log_request (ModelsList c) (new_client w)).
  assert (Hdone : ∀ w', requests w' = requests w1 →
            ∃ more, requests w' = requests w ++ ModelsList c :: more
                    ∧ Forall (λ r, request_client r = c) more).
  { intros w' ->. exists []. split; [reflexivity|constructor]. }
  destruct (models_list (length (requests w)) c)
    as [[|model_name others]|e] eqn:Hlist.
  - apply Hdone. unfold generate_data. rewrite bind_lift, Hsel.
    unfold mbind, M_bind, OpenAI, try_except, client_models_list.
    fold (unit_client u w). fold c. cbn [requests new_client].
    now rewrite Hlist.
  - rewrite (generate_data_listed _ _ _ _ _ _ _ Hsel Hlist).
    fold c. fold w1.
    assert (Hmode : requests_through (λ c', c' = c) w1
              ((if chat args then chat_mode c model_name messages
                else completion_mode c model_name messages) w1).2).
    { destruct (chat args);
        [now apply chat_mode_requests|now apply completion_mode_requests]. }
    destruct Hmode as (more & Hreq & Hall).
    exists more. split; [|exact Hall].
    destruct (chat args); rewrite Hreq; unfold w1, log_request; cbn;
      now rewrite <- app_assoc.
  - apply Hdone. unfold generate_data. rewrite bind_lift, Hsel.
    unfold mbind, M_bind, OpenAI, try_except, client_models_list.
    fold (unit_client u w). fold c. cbn [requests new_client].
    now rewrite Hlist.
Qed.

(** *** Backend assignment *)

(** C2.  Backend assignment.  The sample at position [j] of the remaining
    sequence is submitted under the absolute index [start_idx + j]; with a
    pool that is not empty, its unit selects the backend at that index
    modulo the pool size, and in whatever world the unit runs, its requests
    (starting with the model listing) all go to that backend.  The
    selection depends on the pool and the index alone. *)
Theorem backend_assignment_round_robin data start_idx pool j t :
  pool ≠ [] →
  submissions data start_idx !! j = Some t →
  ∃ u,
    task_idx t = start_idx + j
    ∧ pool !! ((start_idx + j) mod length pool) = Some u
    ∧ select_base_url pool (task_idx t) = Ok u
    ∧ ∀ w, ∃ more,
        requests (generate_data pool (task_messages t) (task_idx t) w).2
        = requests w ++ ModelsList (unit_client u w) :: more
        ∧ Forall (λ r, base_url (request_client r) = u) more.
Proof.
  intros Hpool Hsub.
  rewrite submissions_lookup in Hsub.
  destruct (data !! (start_idx + j)) as [s|]; [|discriminate].
  injection Hsub as <-. cbn [task_idx task_messages].
  assert (Hlt : (start_idx + j) mod length pool < length pool).
  { apply Nat.mod_upper_bound. now destruct pool. }
  destruct (lookup_lt_is_Some_2 pool _ Hlt) as [u Hu].
  assert (Hsel : select_base_url pool (j + start_idx) = Ok u).
  { unfold select_base_url, getitem. rewrite (Nat.add_comm j).
    destruct pool; [easy|]. cbn [length]. cbn [length] in Hu.
    now rewrite Hu. }
  exists u. split; [lia|]. split; [exact Hu|]. split; [exact Hsel|].
  intros w.
  destruct (generate_data_requests pool (conversations s) (j + start_idx) u w
              Hsel) as (more & Hreq & Hall).
  exists more. split; [exact Hreq|].
  eapply Forall_impl; [exact Hall|]. now intros r ->.
Qed.

(** *** An empty pool *)

Lemma generate_data_empty_pool messages idx w :
  generate_data [] messages idx w = (Raise ZeroDivisionError, w).
Proof. reflexivity. Qed.

Lemma run_units_empty_pool tasks w :
  run_units [] tasks w
  = (Ok (replicate (length tasks) (Raise ZeroDivisionError)), w).
Proof.
  induction tasks as [|t tasks' IH]; [reflexivity|].
  cbn [run_units]. unfold mbind at 1, M_bind at 1.
  rewrite try_except_run, generate_data_empty_pool. cbn [fst snd].
  now rewrite (bind_ok _ _ _ _ _ IH).
Qed.

Lemma prepare_file_path_stdout w :
  stdout (prepare_file_path w).2 = stdout w.
Proof.
  unfold prepare_file_path, mbind, M_bind, path_exists, update_fs.
  case_bool_decide; [reflexivity|].
  destruct (mkdir_parents _ _) as [f1|e]; [|reflexivity].
  cbn [fs set_fs]. now destruct (fs_touch _ _).
Qed.

Lemma resume_offset_stdout w :
  stdout (resume_offset w).2 = stdout w
  ∨ ∃ n, (resume_offset w).1 = Ok n
         ∧ stdout (resume_offset w).2 = stdout w ++ [SkipFirst n].
Proof.
  unfold resume_offset, mbind, M_bind, path_exists, read_text.
  case_bool_decide; [|now left].
  destruct (fs_read _ _) as [content|e]; [|now left].
  right. eexists. split; reflexivity.
Qed.

(** C3 (amended).  Empty pool.  If probing leaves the pool empty, the
    script does not stop: once the preparation of the hard-coded path and
    the resume step have gone through and the worker count is positive, it
    submits every remaining sample; each unit stops with
    [ZeroDivisionError] at the selection of its backend, before any request
    or write, and the error stays in its future; nothing is printed beyond
    the pool and the skip notice, and the script ends normally, with exit
    code 0. *)
Theorem empty_pool_runs_to_exit_zero data w w1 w2 start_idx w3 :
  probe_ports (range 8000 8002) [] w = (Ok [], w1) →
  prepare_file_path (add_stdout (ApiBasePool []) w1) = (Ok tt, w2) →
  resume_offset w2 = (Ok start_idx, w3) →
  (0 < num_threads args)%Z →
  ∃ r,
    main data w = (Ok r, w3)
    ∧ exit_code (main data w).1 = 0%Z
    ∧ live_pool r = []
    ∧ submitted r = submissions data start_idx
    ∧ futures r
      = replicate (length data - start_idx) (Raise ZeroDivisionError)
    ∧ (stdout w3 = stdout w1 ++ [ApiBasePool []]
       ∨ stdout w3 = stdout w1 ++ [ApiBasePool []; SkipFirst start_idx]).
Proof.
  intros Hprobe Hprep Hres Hthreads.
  pose proof (run_units_empty_pool (submissions data start_idx) w3) as Hrun.
  pose proof (main_steps _ _ _ _ _ _ _ _ _ Hprobe Hprep Hres Hthreads Hrun)
    as Hmain.
  eexists. split; [exact Hmain|]. rewrite Hmain.
  split; [reflexivity|]. split; [reflexivity|]. split; [reflexivity|].
  split; [cbn [futures]; now rewrite submissions_length|].
  pose proof (prepare_file_path_stdout (add_stdout (ApiBasePool []) w1)) as H2.
  rewrite Hprep in H2. cbn [snd stdout add_stdout] in H2.
  destruct (resume_offset_stdout w2) as [H3|(n & Hn & H3)];
    rewrite Hres in *; cbn [fst snd] in *.
  - left. congruence.
  - right. injection Hn as <-. rewrite H3, H2, <- app_assoc. reflexivity.
Qed.

(** *** The hard-coded path and the output path *)

Lemma mkdir_from_elsewhere rest :
  ∀ f done f' q,
    mkdir_from f done rest = Ok f' →
    (∀ k, q ≠ done ++ take k rest) →
    f' !! q = f !! q.
Proof.
  induction rest as [|c rest' IH]; intros f done f' q Hrun Hq.
  - cbn in Hrun. now injection Hrun as <-.
  - cbn [mkdir_from] in Hrun.
    assert (Hq' : ∀ k, q ≠ (done ++ [c]) ++ take k rest').
    { intros k. rewrite <- app_assoc. exact (Hq (S k)). }
    destruct (f !! (done ++ [c])) as [[|content]|] eqn:E.
    + now apply IH with (done := done ++ [c]).
    + discriminate.
    + rewrite (IH _ _ _ _ Hrun Hq').
      apply lookup_insert_ne. intros <-. apply (Hq 1). reflexivity.
Qed.

(** Whatever the file system, preparing the hard-coded path leaves every
    path that is not on it as it was: a missing output path stays
    missing, and so do its directories. *)
Lemma prepare_file_path_elsewhere w p :
  (∀ k, p ≠ take k file_path) →
  stat (fs (prepare_file_path w).2) p = stat (fs w) p.
Proof.
  intros Hp. unfold prepare_file_path, mbind, M_bind, path_exists, update_fs.
  case_bool_decide; [reflexivity|].
  unfold mkdir_parents.
  destruct (mkdir_from (fs w) [] (parent file_path)) as [f1|e] eqn:Hrun;
    [|reflexivity].
  assert (H1 : f1 !! p = fs w !! p).
  { apply (mkdir_from_elsewhere _ _ _ _ _ Hrun). intros k. cbn [app].
    intros ->. apply (Hp (k `min` 5)).
    unfold file_path, parent. cbn [removelast].
    destruct k as [|[|[|[|[|[|k]]]]]]; reflexivity. }
  cbn [fs set_fs]. unfold fs_touch, create_at.
  assert (Hne : p ≠ []) by exact (Hp 0).
  assert (Hstat : ∀ f, stat f p = f !! p) by (now destruct p).
  destruct (stat f1 file_path); [cbn; now rewrite !Hstat|].
  destruct (stat f1 (parent file_path)) as [[|c]|]; cbn;
    rewrite ?Hstat; try exact H1.
  rewrite lookup_insert_ne; [exact H1|].
  intros <-. apply (Hp 6). reflexivity.
Qed.

(** *** Clients left open *)

Lemma chat_mode_open_clients c model_name messages w :
  open_clients (chat_mode c model_name messages w).2 = open_clients w.
Proof.
  unfold chat_mode, mbind, M_bind.
  pose proof (chat_replay_only_requests (λ _, True) c model_name messages w I)
    as (_ & Hopen & _).
  destruct (chat_replay c model_name messages w)
    as [[[[converted [|o output_conv]]|]|e] w0]; cbn [snd] in *;
    try exact Hopen.
  unfold append_output, update_fs. now destruct (fs_append _ _ _).
Qed.

(** In chat mode no exit path of a unit closes its client: whatever the
    sample and the backend do, the handle the unit allocated is still open
    when the unit is over. *)
Lemma chat_unit_never_closes pool messages idx u w :
  chat args = true →
  select_base_url pool idx = Ok u →
  next_handle w ∈ open_clients (generate_data pool messages idx w).2.
Proof.
  intros Hchat Hsel.
  destruct (models_list (length (requests w)) (unit_client u w))
    as [[|model_name others]|e] eqn:Hlist.
  - unfold generate_data. rewrite bind_lift, Hsel.
    unfold mbind, M_bind, OpenAI, try_except, client_models_list.
    fold (unit_client u w). cbn [requests new_client]. rewrite Hlist.
    cbn. apply list_elem_of_here.
  - rewrite (generate_data_listed _ _ _ _ _ _ _ Hsel Hlist), Hchat.
    rewrite chat_mode_open_clients. cbn. apply list_elem_of_here.
  - unfold generate_data. rewrite bind_lift, Hsel.
    unfold mbind, M_bind, OpenAI, try_except, client_models_list.
    fold (unit_client u w). cbn [requests new_client]. rewrite Hlist.
    cbn. apply list_elem_of_here.
Qed.

(** *** One record, one line *)

Lemma append_cons c s t : String c s +:+ t = String c (s +:+ t).
Proof. reflexivity. Qed.

Lemma append_nil t : EmptyString +:+ t = t.
Proof. reflexivity. Qed.

Lemma one_line_app s t : one_line (s +:+ t) = one_line s && one_line t.
Proof.
  induction s as [|c s IH]; [reflexivity|].
  rewrite append_cons. cbn [one_line]. rewrite IH. now rewrite andb_assoc.
Qed.

Lemma escape_char_one_line c : one_line (escape_char c) = true.
Proof. destruct c as [[] [] [] [] [] [] [] []]; reflexivity. Qed.

Lemma escape_one_line s : one_line (escape s) = true.
Proof.
  induction s as [|c s IH]; [reflexivity|].
  cbn [escape]. now rewrite one_line_app, escape_char_one_line, IH.
Qed.

Lemma encode_str_one_line s : one_line (encode_str s) = true.
Proof.
  unfold encode_str. cbn [one_line]. rewrite one_line_app, escape_one_line.
  reflexivity.
Qed.

Lemma string_of_int_one_line n :
  one_line (NilZero.string_of_int (Z.to_int n)) = true.
Proof.
  assert (Hu : ∀ d, one_line (NilEmpty.string_of_uint d) = true).
  { induction d; cbn; auto. }
  assert (Hz : ∀ d, one_line (NilZero.string_of_uint d) = true).
  { intros d. unfold NilZero.string_of_uint. destruct d; try apply Hu.
    reflexivity. }
  destruct (Z.to_int n); cbn [NilZero.string_of_int one_line]; rewrite Hz;
    reflexivity.
Qed.

Lemma join_one_line sep parts :
  one_line sep = true →
  Forall (λ p, one_line p = true) parts →
  one_line (join sep parts) = true.
Proof.
  intros Hsep. induction 1 as [|p parts Hp _ IH]; [reflexivity|].
  cbn [join]. destruct parts as [|p' parts']; [exact Hp|].
  now rewrite !one_line_app, Hp, Hsep, IH.
Qed.

(** [json.dumps] never puts a line terminator in its output. *)
Lemma dumps_one_line v : one_line (dumps v) = true.
Proof.
  induction v as [|[]| | |items IH|fields IH] using json_ind;
    try reflexivity.
  - apply string_of_int_one_line.
  - apply encode_str_one_line.
  - cbn [dumps]. rewrite !one_line_app, join_one_line; [reflexivity..|].
    now apply Forall_fmap.
  - cbn [dumps]. rewrite !one_line_app, join_one_line; [reflexivity..|].
    apply Forall_fmap. eapply Forall_impl; [exact IH|].
    intros [k x] Hx. cbn in *.
    now rewrite !one_line_app, encode_str_one_line, Hx.
Qed.

Lemma count_lines_one_line s :
  one_line s = true →
  ∀ pending t,
    count_lines_from pending (s +:+ String LF t)
    = S (count_lines_from false t).
Proof.
  induction s as [|c s IH]; intros Hs pending t; [reflexivity|].
  cbn in Hs. apply andb_prop in Hs as [Hc Hs]. apply andb_prop in Hc as [Hlf Hcr].
  apply negb_true_iff in Hlf, Hcr.
  rewrite append_cons. cbn [count_lines_from]. rewrite Hlf, Hcr. now apply IH.
Qed.

Lemma count_lines_from_step pending c c' rest :
  count_lines_from pending (String c (String c' rest))
  = if Ascii.eqb c LF then S (count_lines_from false (String c' rest))
    else if Ascii.eqb c CR then
      if Ascii.eqb c' LF then count_lines_from false (String c' rest)
      else S (count_lines_from false (String c' rest))
    else count_lines_from true (String c' rest).
Proof.
  cbn [count_lines_from].
  destruct (Ascii.eqb c LF); [reflexivity|].
  destruct (Ascii.eqb c CR); [|reflexivity].
  now destruct (Ascii.eqb c' LF).
Qed.

Lemma count_lines_app_ends s :
  s ≠ EmptyString → ends_lines s = true →
  ∀ pending t,
    count_lines_from pending (s +:+ t)
    = count_lines_from pending s + count_lines_from false t.
Proof.
  induction s as [|c s IH]; [easy|]. intros _ Hends pending t.
  destruct s as [|c' s'].
  - cbn in Hends. apply Ascii.eqb_eq in Hends as ->. reflexivity.
  - assert (Hs : ends_lines (String c' s') = true) by exact Hends.
    specialize (IH ltac:(discriminate) Hs).
    rewrite !append_cons, !count_lines_from_step.
    rewrite <- append_cons, !IH.
    destruct (Ascii.eqb c LF); [reflexivity|].
    destruct (Ascii.eqb c CR); [|reflexivity].
    now destruct (Ascii.eqb c' LF).
Qed.

(** Appending the line of a record to a text made of whole lines adds
    exactly one line, and the text is again made of whole lines. *)
Lemma count_lines_record old v :
  ends_lines old = true →
  count_lines (old +:+ dumps v +:+ str1 LF) = count_lines old + 1.
Proof.
  intros Hends. unfold count_lines.
  assert (Hline : ∀ pending,
            count_lines_from pending (dumps v +:+ str1 LF) = 1).
  { intros pending. unfold str1.
    now rewrite (count_lines_one_line _ (dumps_one_line v)). }
  destruct old as [|c old'].
  - rewrite append_nil. now rewrite Hline.
  - rewrite count_lines_app_ends by (assumption || discriminate).
    now rewrite Hline.
Qed.

Lemma ends_lines_app s t :
  t ≠ EmptyString → ends_lines (s +:+ t) = ends_lines t.
Proof.
  intros Ht. induction s as [|c s IH]; [reflexivity|].
  rewrite append_cons. destruct (s +:+ t) eqn:E.
  - destruct s; [cbn in E; contradiction|discriminate].
  - rewrite <- E in *. cbn [ends_lines]. rewrite E. rewrite <- E. exact IH.
Qed.

Lemma ends_lines_record old v :
  ends_lines (old +:+ dumps v +:+ str1 LF) = true.
Proof.
  rewrite ends_lines_app by (destruct (dumps v); discriminate).
  rewrite ends_lines_app by discriminate. reflexivity.
Qed.

(** *** What a unit writes *)

Lemma fs_append_inv f p line f' :
  fs_append f p line = Ok f' →
  appendable f p ∧ f' = <[p := File (text_of f p +:+ line)]> f.
Proof.
  unfold fs_append, appendable, text_of, create_at.
  destruct (stat f p) as [[|old]|] eqn:E; [discriminate| |].
  - intros H. injection H as <-. split; [eauto|reflexivity].
  - destruct (stat f (parent p)) as [[|c]|] eqn:Ep; try discriminate.
    intros H. injection H as <-. split; [now right|reflexivity].
Qed.

Lemma append_output_wrote v w :
  wrote_at_most_one w (append_output (dumps v +:+ str1 LF) w).2.
Proof.
  unfold append_output, update_fs.
  destruct (fs_append _ _ _) as [f'|e] eqn:E; [|now left].
  apply fs_append_inv in E as [Happ ->]. right. split; [exact Happ|].
  exists v. reflexivity.
Qed.

Lemma wrote_at_most_one_refl w w' : fs w' = fs w → wrote_at_most_one w w'.
Proof. now left. Qed.

Lemma wrote_at_most_one_after w w0 w' :
  fs w0 = fs w → wrote_at_most_one w0 w' → wrote_at_most_one w w'.
Proof. unfold wrote_at_most_one. now intros ->. Qed.

Lemma chat_mode_wrote c model_name messages w :
  wrote_at_most_one w (chat_mode c model_name messages w).2.
Proof.
  unfold chat_mode, mbind, M_bind.
  pose proof (chat_replay_only_requests (λ _, True) c model_name messages w I)
    as (Hfs & _).
  destruct (chat_replay c model_name messages w)
    as [[[[converted [|o output_conv]]|]|e] w0]; cbn [snd] in *;
    try (now left).
  apply wrote_at_most_one_after with (w0 := w0); [exact Hfs|].
  apply append_output_wrote.
Qed.

Lemma completion_mode_wrote c model_name messages w :
  wrote_at_most_one w (completion_mode c model_name messages w).2.
Proof.
  unfold completion_mode.
  rewrite bind_lift.
  destruct (getitem messages 0) as [m0|e]; [|now left].
  rewrite bind_lift.
  destruct (subscript m0 "from") as [from|e]; [|now left].
  assert (Hrest : ∀ conv ms w,
    wrote_at_most_one w
      ((m1 ← lift (getitem ms 0);
        value ← lift (subscript m1 "value");
        let conv0 := append_message conv (roles conv).1 (Some value) in
        let conv1 := append_message conv0 (roles conv0).2 None in
        let prompt := get_prompt conv1 in
        resp ← try_except (client_completions_create c model_name prompt);
        match resp with
        | Raise e => print (FailedToGenerate e prompt);; close c
        | Ok choices =>
            close c;;
            choice ← lift (getitem choices 0);
            let answer := strip (text choice) in
            append_output (dumps (text_record prompt answer) +:+ str1 LF)
        end) w).2).
  { clear. intros conv ms w. rewrite bind_lift.
    destruct (getitem ms 0) as [m1|e]; [|now left].
    rewrite bind_lift.
    destruct (subscript m1 "value") as [value|e]; [|now left].
    cbv zeta.
    unfold mbind at 1, M_bind at 1, try_except, client_completions_create.
    set (prompt := get_prompt _).
    destruct (completions_create _ _ _ _ _ _) as [choices|e]; [|now left].
    unfold mbind at 1, M_bind at 1, close.
    rewrite bind_lift.
    destruct (getitem choices 0) as [choice|e]; [|now left].
    eapply wrote_at_most_one_after; [|apply append_output_wrote].
    reflexivity. }
  unfold mbind at 1, M_bind at 1.
  destruct (eq_str from "system").
  - rewrite bind_lift.
    destruct (subscript m0 "text") as [text|e]; [|now left].
    apply Hrest.
  - apply Hrest.
Qed.

(** Whatever its sample and its backend do, a unit leaves the file system
    as it found it or appends the line of one record to the output file. *)
Lemma generate_data_wrote pool messages idx w :
  wrote_at_most_one w (generate_data pool messages idx w).2.
Proof.
  unfold generate_data. rewrite bind_lift.
  destruct (select_base_url pool idx) as [u|e]; [|now left].
  unfold mbind at 1, M_bind at 1, OpenAI.
  set (c := {| handle := _ |}).
  destruct (models_list (length (requests w)) c)
    as [[|model_name others]|e] eqn:Hlist;
    unfold mbind, M_bind, try_except, client_models_list;
    cbn [requests new_client]; rewrite Hlist; try (now left).
  cbn [lift getitem lookup list_lookup].
  eapply wrote_at_most_one_after;
    [|destruct (chat args);
      [apply chat_mode_wrote|apply completion_mode_wrote]].
  reflexivity.
Qed.

(** *** The output text over a run *)

Lemma append_assoc s t u : (s +:+ t) +:+ u = s +:+ t +:+ u.
Proof.
  induction s as [|c s IH]; [reflexivity|].
  now rewrite !append_cons, IH.
Qed.

Lemma append_empty s : s +:+ EmptyString = s.
Proof.
  induction s as [|c s IH]; [reflexivity|]. now rewrite append_cons, IH.
Qed.

Lemma appendable_nonroot f p : appendable f p → p ≠ [].
Proof. intros [[old H]|[H _]] ->; discriminate. Qed.

Lemma wrote_text w w' :
  wrote_at_most_one w w' →
  output_text w' = output_text w
  ∨ ∃ v, output_text w' = output_text w +:+ dumps v +:+ str1 LF.
Proof.
  unfold output_text. intros [->|(Happ & v & ->)]; [now left|].
  right. exists v. apply appendable_nonroot in Happ.
  unfold with_line, text_of at 1, stat.
  destruct (output_path args) as [|p0 ps] eqn:Ep; [contradiction|].
  now rewrite lookup_insert_eq.
Qed.

Lemma run_units_text pool tasks :
  ∀ w, ∃ records,
    output_text (run_units pool tasks w).2
    = output_text w +:+ record_lines records
    ∧ length records ≤ length tasks.
Proof.
  induction tasks as [|t tasks' IH]; intros w.
  - exists []. cbn. now rewrite append_empty.
  - cbn [run_units]. unfold mbind at 1, M_bind at 1.
    rewrite try_except_run. cbn [fst snd].
    set (w1 := (generate_data pool (task_messages t) (task_idx t) w).2).
    destruct (IH w1) as (records & Htext & Hlen).
    destruct (run_units_total pool tasks' w1) as (rs & w2 & Hrun & _).
    rewrite Hrun in Htext. cbn [snd] in Htext.
    rewrite (bind_ok _ _ _ _ _ Hrun). cbn [mret M_ret snd].
    destruct (wrote_text w w1 (generate_data_wrote _ _ _ _)) as [H1|[v H1]].
    + exists records. rewrite Htext, H1. split; [reflexivity|cbn; lia].
    + exists (v :: records). rewrite Htext, H1. cbn [record_lines length].
      split; [|lia]. now rewrite !append_assoc.
Qed.

Lemma count_lines_records records :
  ∀ old, ends_lines old = true →
    count_lines (old +:+ record_lines records)
    = count_lines old + length records.
Proof.
  induction records as [|v records' IH]; intros old Hends.
  - cbn. rewrite append_empty. lia.
  - cbn [record_lines length].
    replace (old +:+ dumps v +:+ str1 LF +:+ record_lines records')
      with ((old +:+ dumps v +:+ str1 LF) +:+ record_lines records')
      by now rewrite !append_assoc.
    rewrite IH by apply ends_lines_record.
    rewrite count_lines_record by assumption. lia.
Qed.

(** Creating directories and touching a file change no text. *)

Lemma text_of_insert_absent f q n p :
  f !! q = None → (n = Dir ∨ n = File EmptyString) →
  text_of (<[q := n]> f) p = text_of f p.
Proof.
  intros Hq Hn. unfold text_of, stat. destruct p as [|p0 ps]; [reflexivity|].
  rewrite lookup_insert. case_decide as Heq; [|reflexivity].
  subst q. rewrite Hq. now destruct Hn as [-> | ->].
Qed.

Lemma mkdir_from_text rest :
  ∀ f done f' p,
    mkdir_from f done rest = Ok f' → text_of f' p = text_of f p.
Proof.
  induction rest as [|c rest' IH]; intros f done f' p Hrun.
  - cbn in Hrun. now injection Hrun as <-.
  - cbn [mkdir_from] in Hrun.
    destruct (f !! (done ++ [c])) as [[|content]|] eqn:E.
    + now apply IH with (done := done ++ [c]).
    + discriminate.
    + rewrite (IH _ _ _ p Hrun). apply text_of_insert_absent; auto.
Qed.

Lemma prepare_file_path_text w p :
  text_of (fs (prepare_file_path w).2) p = text_of (fs w) p.
Proof.
  unfold prepare_file_path, mbind, M_bind, path_exists, update_fs.
  case_bool_decide as Hex; [reflexivity|].
  unfold mkdir_parents.
  destruct (mkdir_from (fs w) [] (parent file_path)) as [f1|e] eqn:Hrun;
    [|reflexivity].
  cbn [fs set_fs]. rewrite <- (mkdir_from_text _ _ _ _ p Hrun).
  unfold fs_touch, create_at.
  destruct (stat f1 file_path) eqn:E1; [reflexivity|].
  destruct (stat f1 (parent file_path)) as [[|c]|]; try reflexivity.
  cbn [fs set_fs snd]. apply text_of_insert_absent; [exact E1|auto].
Qed.

Lemma resume_offset_counts w start_idx w' :
  resume_offset w = (Ok start_idx, w') →
  start_idx = count_lines (output_text w) ∧ fs w' = fs w.
Proof.
  unfold resume_offset, mbind, M_bind, path_exists, read_text, fs_read,
    output_text, text_of.
  case_bool_decide as Hex.
  - destruct (stat (fs w) (output_path args)) as [[|content]|];
      try discriminate.
    cbn. intros H. injection H as <- <-. split; reflexivity.
  - intros H. injection H as <- <-.
    destruct (stat (fs w) (output_path args)) as [n|] eqn:E;
      [exfalso; apply Hex; eauto|].
    split; reflexivity.
Qed.

(** *** Chat mode: empty results *)

Lemma output_text_with_line w w' line :
  appendable (fs w) (output_path args) →
  fs w' = with_line (fs w) line →
  output_text w' = output_text w +:+ line +:+ str1 LF.
Proof.
  intros Happ Hfs. unfold output_text. rewrite Hfs.
  apply appendable_nonroot in Happ.
  unfold with_line, text_of at 1, stat.
  destruct (output_path args) as [|p0 ps] eqn:Ep; [contradiction|].
  now rewrite lookup_insert_eq.
Qed.

(** C6 (amended).  Empty-result suppression.  For a unit in chat mode
    whose model listing succeeded: (1) if the sample starts with a user
    turn, not a system turn, and the first chat request fails with an
    error, the unit returns and the file system is unchanged, so no line is
    produced; (2) whenever the loop ends, with accumulated record
    [output_conv], and the output path can be appended to, the unit changes
    the output file if and only if [output_conv] is not empty, and then it
    appends exactly the line of that record: one more line in a file made
    of whole lines. *)
Theorem record_written_iff_nonempty
    pool idx u w model_name others messages :
  let c := unit_client u w in
  let t := length (requests w) in
  chat args = true →
  select_base_url pool idx = Ok u →
  models_list t c = Ok (model_name :: others) →
  (∀ m rest v e,
      messages = m :: rest → human_turn m v →
      chat_create (S t) c model_name [user_message v]
        (max_tokens args) (temperature args) = Raise e →
      ∃ w', generate_data pool messages idx w = (Ok tt, w')
            ∧ fs w' = fs w)
  ∧ (∀ converted output_conv w2,
      appendable (fs w) (output_path args) →
      chat_replay c model_name messages
        (log_request (ModelsList c) (new_client w))
      = (Ok (Some (converted, output_conv)), w2) →
      ∃ w', generate_data pool messages idx w = (Ok tt, w')
            ∧ (fs w' ≠ fs w ↔ output_conv ≠ [])
            ∧ (output_conv ≠ [] →
               fs w' = with_line (fs w) (dumps (chat_record output_conv)))
            ∧ (ends_lines (output_text w) = true →
               count_lines (output_text w')
               = count_lines (output_text w)
                 + match output_conv with
                   | [] => 0
                   | _ => 1
                   end)).
Proof.
  intros c t Hchat Hsel Hlist.
  set (w1 := log_request (ModelsList c) (new_client w)).
  assert (Ht1 : length (requests w1) = S t).
  { unfold w1, log_request. cbn. rewrite length_app. cbn. unfold t. lia. }
  assert (Hgen : generate_data pool messages idx w
                 = chat_mode c model_name messages w1).
  { now rewrite (generate_data_listed _ _ _ _ _ _ _ Hsel Hlist), Hchat. }
  split.
  - intros m rest v e -> Hm Hfail.
    assert (Hlead : leading (m :: rest) [] [] (m :: rest)).
    { destruct Hm as [Hf _].
      now apply leading_other with (m := m) (rest := rest)
                                   (speaker := JStr "human"). }
    assert (Hrun : chat_replay c model_name (m :: rest) w1
                   = (Ok (Some ([user_message v], [])),
                      log_request (ChatCreate c model_name [user_message v]) w1)).
    { rewrite (chat_replay_leading _ _ _ _ _ _ _ Hlead).
      assert (Heo : ∃ tl, every_other (m :: rest) = m :: tl).
      { destruct rest; cbn; eauto. }
      destruct Heo as [tl ->].
      apply (chat_loop_failed c model_name m v tl [] [] w1 e Hm).
      now rewrite Ht1. }
    rewrite Hgen. unfold chat_mode. rewrite (bind_ok _ _ _ _ _ Hrun).
    eexists. split; reflexivity.
  - intros converted output_conv w2 Happ Hrun.
    pose proof (chat_replay_only_requests (λ _, True) c model_name messages
                  w1 I) as (Hfs & _).
    rewrite Hrun in Hfs. cbn [snd] in Hfs.
    assert (Hfs2 : fs w2 = fs w) by (rewrite Hfs; reflexivity).
    rewrite Hgen.
    rewrite (chat_mode_done _ _ _ _ _ _ _ Hrun) by now rewrite Hfs2.
    eexists. split; [reflexivity|].
    destruct output_conv as [|o output_conv'].
    + split; [|split; [easy|]].
      * split; [intros H; now contradict H|easy].
      * intros _. unfold output_text. rewrite Hfs2. lia.
    + cbn [fs set_fs]. rewrite Hfs2. split; [|split; [easy|]].
      * split; [easy|]. intros _. now apply with_line_changes.
      * intros Hends.
        rewrite (output_text_with_line w _ (dumps (chat_record (o :: output_conv')))
                   Happ) by reflexivity.
        now apply count_lines_record.
Qed.

(** *** Two runs in a row *)

Lemma main_inv data w r w' :
  main data w = (Ok r, w') →
  ∃ w1 w2 w3,
    probe_ports (range 8000 8002) [] w = (Ok (live_pool r), w1)
    ∧ prepare_file_path (add_stdout (ApiBasePool (live_pool r)) w1)
      = (Ok tt, w2)
    ∧ resume_offset w2 = (Ok (start_idx_of r), w3)
    ∧ run_units (live_pool r) (submissions data (start_idx_of r)) w3
      = (Ok (futures r), w')
    ∧ submitted r = submissions data (start_idx_of r).
Proof.
  unfold main. intros H.
  destruct (probe_ports_fs (range 8000 8002) [] w) as (pool & w1 & Hprobe & _).
  rewrite (bind_ok _ _ _ _ _ Hprobe) in H.
  unfold mbind at 1, M_bind at 1, print in H.
  destruct (prepare_file_path (add_stdout (ApiBasePool pool) w1))
    as [[[]|e] w2] eqn:Hprep;
    [rewrite (bind_ok _ _ _ _ _ Hprep) in H
    |rewrite (bind_raise _ _ _ _ _ Hprep) in H; discriminate].
  destruct (resume_offset w2) as [[start_idx|e] w3] eqn:Hres;
    [rewrite (bind_ok _ _ _ _ _ Hres) in H
    |rewrite (bind_raise _ _ _ _ _ Hres) in H; discriminate].
  case_bool_decide; [discriminate|].
  unfold mbind at 1, M_bind at 1, mret at 1, M_ret at 1 in H.
  destruct (run_units_total pool (submissions data start_idx) w3)
    as (rs & w4 & Hrun & _).
  rewrite (bind_ok _ _ _ _ _ Hrun) in H.
  injection H as <- <-. cbn.
  exists w1, w2, w3. repeat split; assumption.
Qed.

Lemma main_start_idx data w r w' :
  main data w = (Ok r, w') →
  start_idx_of r = count_lines (output_text w)
  ∧ ∃ records,
      output_text w' = output_text w +:+ record_lines records
      ∧ length records ≤ length (submitted r).
Proof.
  intros H. destruct (main_inv _ _ _ _ H)
    as (w1 & w2 & w3 & Hprobe & Hprep & Hres & Hrun & Hsub).
  destruct (probe_ports_fs (range 8000 8002) [] w)
    as (pool & w1' & Hprobe' & Hfs1).
  rewrite Hprobe in Hprobe'. injection Hprobe' as <- <-.
  assert (Ht2 : output_text w2 = output_text w).
  { pose proof (prepare_file_path_text
                  (add_stdout (ApiBasePool (live_pool r)) w1)
                  (output_path args)) as Ht.
    rewrite Hprep in Ht. cbn [snd fs add_stdout] in Ht.
    unfold output_text. now rewrite Ht, Hfs1. }
  destruct (resume_offset_counts _ _ _ Hres) as [Hstart Hfs3].
  split; [now rewrite Hstart, Ht2|].
  destruct (run_units_text (live_pool r) (submissions data (start_idx_of r)) w3)
    as (records & Htext & Hlen).
  rewrite Hrun in Htext. cbn [snd] in Htext.
  exists records. split; [|now rewrite Hsub].
  assert (Ht3 : output_text w3 = output_text w2).
  { unfold output_text. now rewrite Hfs3. }
  now rewrite Htext, Ht3, Ht2.
Qed.

(** Resume idempotence.  When the output file is made of whole lines and
    the script runs twice in a row, the second run starts where the first
    one started plus the number of records the first one wrote, so it
    submits no more samples than the first; if the first run wrote a
    record for each of its submissions, the second run submits nothing. *)
Lemma rerun_starts_after_written_lines data w r1 w1 r2 w2 :
  ends_lines (output_text w) = true →
  main data w = (Ok r1, w1) →
  main data w1 = (Ok r2, w2) →
  ∃ written,
    written ≤ length (submitted r1)
    ∧ start_idx_of r2 = start_idx_of r1 + written
    ∧ length (submitted r2) ≤ length (submitted r1)
    ∧ (written = length (submitted r1) → submitted r2 = []).
Proof.
  intros Hends H1 H2.
  destruct (main_start_idx _ _ _ _ H1) as (Hs1 & records & Htext & Hlen).
  destruct (main_start_idx _ _ _ _ H2) as (Hs2 & _).
  destruct (main_inv _ _ _ _ H1) as (_ & _ & _ & _ & _ & _ & _ & Hsub1).
  destruct (main_inv _ _ _ _ H2) as (_ & _ & _ & _ & _ & _ & _ & Hsub2).
  exists (length records).
  assert (Hstart : start_idx_of r2 = start_idx_of r1 + length records).
  { rewrite Hs2, Htext, count_lines_records by assumption. now rewrite Hs1. }
  split; [exact Hlen|]. split; [exact Hstart|].
  rewrite Hsub1, Hsub2, !submissions_length in *.
  split; [lia|].
  intros Hall. apply length_zero_iff_nil. rewrite submissions_length. lia.
Qed.

(** *** Resume planning *)

(** C1.  Resume planning.  If the output path exists, holding [content],
    the run starts at the number of lines of [content] and submits exactly
    the samples from that offset to the end of the data, in order and under
    their absolute indices; when the file already has a line for every
    sample (or more), nothing is submitted.  A run right after this one
    starts further by the number of records this one wrote, and submits
    nothing when this one wrote a record for each of its submissions.  The
    run is taken where the script gets as far as dispatching: the way to
    the hard-coded path is clear and the worker count is positive. *)
Theorem resume_starts_at_line_count data w content :
  stat (fs w) (output_path args) = Some (File content) →
  clear_way (fs w) (parent file_path) →
  (0 < num_threads args)%Z →
  ∃ r w',
    main data w = (Ok r, w')
    ∧ start_idx_of r = count_lines content
    ∧ task_messages <$> submitted r
      = conversations <$> drop (count_lines content) data
    ∧ task_idx <$> submitted r
      = seq (count_lines content) (length data - count_lines content)
    ∧ (length data ≤ count_lines content → submitted r = [])
    ∧ (ends_lines content = true →
       ∀ r2 w2, main data w' = (Ok r2, w2) →
         ∃ written,
           written ≤ length (submitted r)
           ∧ start_idx_of r2 = count_lines content + written
           ∧ (written = length (submitted r) → submitted r2 = [])).
Proof.
  intros Hstat Hclear Hthreads.
  destruct (probe_ports_fs (range 8000 8002) [] w) as (pool & w1 & Hprobe & Hfs1).
  destruct (prepare_file_path_spec (add_stdout (ApiBasePool pool) w1))
    as (f' & Hprep & Hsub).
  { cbn [fs add_stdout]. now rewrite Hfs1. }
  set (w2 := set_fs f' (add_stdout (ApiBasePool pool) w1)) in *.
  assert (Hstat2 : stat (fs w2) (output_path args) = Some (File content)).
  { cbn [fs set_fs w2 add_stdout] in *. unfold stat in *.
    destruct (output_path args) as [|p0 ps]; [discriminate|].
    eapply lookup_weaken; [|exact Hsub]. now rewrite Hfs1. }
  pose proof (resume_offset_existing w2 content Hstat2) as Hres.
  destruct (run_units_total pool (submissions data (count_lines content))
              (add_stdout (SkipFirst (count_lines content)) w2))
    as (rs & w4 & Hrun & _).
  pose proof (main_steps _ _ _ _ _ _ _ _ _ Hprobe Hprep Hres Hthreads Hrun)
    as Hmain.
  eexists _, w4. split; [exact Hmain|].
  cbn [start_idx_of submitted].
  split; [reflexivity|]. split; [apply submissions_messages|].
  split; [apply submissions_indices|].
  split.
  { intros Hfull. apply length_zero_iff_nil. rewrite submissions_length. lia. }
  intros Hends r2 w5 Hmain2.
  assert (Hends' : ends_lines (output_text w) = true).
  { unfold output_text, text_of. now rewrite Hstat. }
  destruct (rerun_starts_after_written_lines _ _ _ _ _ _ Hends' Hmain Hmain2)
    as (written & Hle & Hstart & _ & Hall).
  exists written. cbn [start_idx_of submitted] in *. auto.
Qed.

(** ** Further properties of the script *)

(** *** Chat mode: the whole conversation *)

(** X1.  Full replay.  When the backend completes every user turn of a
    sample, the unit appends one record: the leading system turn, if any,
    followed by each user turn and the stripped answer to it, in order.
    The assistant turns of the sample are not carried over, and the unit
    makes one chat request per user turn after the model listing. *)
Theorem chat_replays_every_user_turn
    pool idx u w model_name others messages sys ctx turns us vs answers :
  let c := unit_client u w in
  let t := length (requests w) in
  let output_conv := sys ++ replayed_out us answers in
  chat args = true →
  select_base_url pool idx = Ok u →
  models_list t c = Ok (model_name :: others) →
  appendable (fs w) (output_path args) →
  leading messages sys ctx turns →
  every_other turns = us →
  Forall2 human_turn us vs →
  length answers = length us →
  answered c model_name ctx (S t) vs answers →
  ∃ w',
    generate_data pool messages idx w = (Ok tt, w')
    ∧ fs w' = match output_conv with
              | [] => fs w
              | _ => with_line (fs w) (dumps (chat_record output_conv))
              end
    ∧ requests w'
      = requests w ++ ModelsList c :: chat_requests c model_name ctx vs answers.
Proof.
  intros c t output_conv Hchat Hsel Hlist Happ Hlead Hturns Hus Hlen Hans.
  set (w1 := log_request (ModelsList c) (new_client w)).
  assert (Ht1 : length (requests w1) = S t).
  { unfold w1, log_request. cbn. rewrite length_app. cbn. unfold t. lia. }
  set (w2 := log_requests (chat_requests c model_name ctx vs answers) w1).
  assert (Hrun : chat_replay c model_name messages w1
                 = (Ok (Some (ctx ++ replayed vs answers, output_conv)), w2)).
  { rewrite (chat_replay_leading _ _ _ _ _ _ _ Hlead), Hturns.
    rewrite <- (app_nil_r us) at 1.
    rewrite chat_loop_replay with (vs := vs) (answers := answers);
      [reflexivity|assumption|assumption|now rewrite Ht1]. }
  rewrite (generate_data_listed _ _ _ _ _ _ _ Hsel Hlist), Hchat.
  fold c. fold w1.
  rewrite (chat_mode_done _ _ _ _ _ _ _ Hrun) by exact Happ.
  eexists. split; [reflexivity|]. split.
  - destruct output_conv; reflexivity.
  - assert (Hreq : requests w2
                   = requests w ++ ModelsList c
                       :: chat_requests c model_name ctx vs answers).
    { unfold w2, w1, log_request. cbn. now rewrite <- app_assoc. }
    destruct output_conv; exact Hreq.
Qed.

(** X2.  Backend error in the middle.  If the backend completes the k-1
    user turns [us] and the request for the k-th user turn fails with an
    error, the loop ends there and the unit still returns normally and
    appends the record of the system turn, if any, and the k-1 completed
    pairs. *)
Theorem chat_error_keeps_completed_pairs
    pool idx u w model_name others messages sys ctx turns
    us uk rest vs vk answers e :
  let c := unit_client u w in
  let t := length (requests w) in
  let converted := ctx ++ replayed vs answers ++ [user_message vk] in
  let output_conv := sys ++ replayed_out us answers in
  chat args = true →
  select_base_url pool idx = Ok u →
  models_list t c = Ok (model_name :: others) →
  appendable (fs w) (output_path args) →
  leading messages sys ctx turns →
  every_other turns = us ++ uk :: rest →
  Forall2 human_turn us vs →
  human_turn uk vk →
  length answers = length us →
  answered c model_name ctx (S t) vs answers →
  chat_create (S t + length us) c model_name converted
    (max_tokens args) (temperature args) = Raise e →
  ∃ w',
    generate_data pool messages idx w = (Ok tt, w')
    ∧ fs w' = match output_conv with
              | [] => fs w
              | _ => with_line (fs w) (dumps (chat_record output_conv))
              end
    ∧ requests w'
      = requests w ++ ModelsList c
          :: chat_requests c model_name ctx vs answers
          ++ [ChatCreate c model_name converted].
Proof.
  intros c t converted output_conv Hchat Hsel Hlist Happ Hlead Hturns
    Hus Huk Hlen Hans Hfail.
  set (w1 := log_request (ModelsList c) (new_client w)).
  assert (Ht1 : length (requests w1) = S t).
  { unfold w1, log_request. cbn. rewrite length_app. cbn. unfold t. lia. }
  set (w2 := log_request (ChatCreate c model_name converted)
               (log_requests (chat_requests c model_name ctx vs answers) w1)).
  assert (Hn : length (chat_requests c model_name ctx vs answers) = length us).
  { clear - Hus Hlen. revert ctx answers Hlen.
    induction Hus as [|u0 v0 us0 vs0 _ _ IH]; intros ctx [|a answers] Hl;
      try discriminate; [reflexivity|].
    cbn. f_equal. apply IH. now injection Hl. }
  assert (Hrun : chat_replay c model_name messages w1
                 = (Ok (Some (converted, output_conv)), w2)).
  { rewrite (chat_replay_leading _ _ _ _ _ _ _ Hlead), Hturns.
    rewrite chat_loop_replay with (vs := vs) (answers := answers);
      [|assumption|assumption|now rewrite Ht1].
    rewrite chat_loop_failed with (vk := vk) (e := e); [|assumption|].
    - unfold converted, w2. now rewrite <- app_assoc.
    - cbn [log_requests requests]. rewrite length_app, Ht1, Hn, <- app_assoc.
      exact Hfail. }
  rewrite (generate_data_listed _ _ _ _ _ _ _ Hsel Hlist), Hchat.
  fold c. fold w1.
  rewrite (chat_mode_done _ _ _ _ _ _ _ Hrun) by exact Happ.
  eexists. split; [reflexivity|]. split.
  - destruct output_conv; reflexivity.
  - assert (Hreq : requests w2
                   = requests w ++ ModelsList c
                       :: chat_requests c model_name ctx vs answers
                       ++ [ChatCreate c model_name converted]).
    { unfold w2, w1, log_request. cbn. now rewrite <- !app_assoc. }
    destruct output_conv; exact Hreq.
Qed.

Lemma chat_loop_raises c model_name uk rest converted output_conv w e :
  raises_at c model_name converted (length (requests w)) uk e →
  ∃ w', chat_loop c model_name (uk :: rest) converted output_conv w
        = (Raise e, w')
        ∧ fs w' = fs w.
Proof.
  intros [Hfrom|Hfrom Hval|v [Hfrom Hval] Hresp
          |v choice more [Hfrom Hval] Hresp Hfin Hcontent];
    cbn [chat_loop]; rewrite bind_lift, Hfrom.
  - eauto.
  - cbn [eq_str]. change (String.eqb "human" "human") with true. cbn [negb].
    rewrite bind_lift, Hval. eauto.
  - cbn [eq_str]. change (String.eqb "human" "human") with true. cbn [negb].
    rewrite bind_lift, Hval.
    unfold mbind at 1, M_bind at 1, try_except, chat_completions_create.
    rewrite Hresp, bind_lift. cbn [getitem lookup list_lookup]. eauto.
  - cbn [eq_str]. change (String.eqb "human" "human") with true. cbn [negb].
    rewrite bind_lift, Hval.
    unfold mbind at 1, M_bind at 1, try_except, chat_completions_create.
    rewrite Hresp, bind_lift. cbn [getitem lookup list_lookup].
    apply String.eqb_neq in Hfin. rewrite Hfin.
    rewrite bind_lift, Hcontent. eauto.
Qed.

(** X3.  An exception inside the loop.  If, after the backend completed
    the user turns [us], the loop body raises at the next user turn (the
    turn lacks a key the code reads, the response has no choice, or its
    choice has no content), the unit ends with that exception and writes
    nothing: the pairs completed before are lost, unlike after a backend
    error. *)
Theorem chat_exception_discards_record
    pool idx u w model_name others messages sys ctx turns
    us uk rest vs answers e :
  let c := unit_client u w in
  let t := length (requests w) in
  chat args = true →
  select_base_url pool idx = Ok u →
  models_list t c = Ok (model_name :: others) →
  leading messages sys ctx turns →
  every_other turns = us ++ uk :: rest →
  Forall2 human_turn us vs →
  length answers = length us →
  answered c model_name ctx (S t) vs answers →
  raises_at c model_name (ctx ++ replayed vs answers) (S t + length us) uk e →
  ∃ w', generate_data pool messages idx w = (Raise e, w') ∧ fs w' = fs w.
Proof.
  intros c t Hchat Hsel Hlist Hlead Hturns Hus Hlen Hans Hraise.
  set (w1 := log_request (ModelsList c) (new_client w)).
  assert (Ht1 : length (requests w1) = S t).
  { unfold w1, log_request. cbn. rewrite length_app. cbn. unfold t. lia. }
  assert (Hn : length (chat_requests c model_name ctx vs answers) = length us).
  { clear - Hus Hlen. revert ctx answers Hlen.
    induction Hus as [|u0 v0 us0 vs0 _ _ IH]; intros ctx [|a answers] Hl;
      try discriminate; [reflexivity|].
    cbn. f_equal. apply IH. now injection Hl. }
  set (w2 := log_requests (chat_requests c model_name ctx vs answers) w1).
  destruct (chat_loop_raises c model_name uk rest (ctx ++ replayed vs answers)
              (sys ++ replayed_out us answers) w2 e) as (w' & Hloop & Hfs).
  { unfold w2. cbn [log_requests requests]. now rewrite length_app, Ht1, Hn. }
  exists w'. split; [|rewrite Hfs; reflexivity].
  rewrite (generate_data_listed _ _ _ _ _ _ _ Hsel Hlist), Hchat.
  fold c. fold w1. unfold chat_mode.
  apply bind_raise.
  rewrite (chat_replay_leading _ _ _ _ _ _ _ Hlead), Hturns.
  rewrite chat_loop_replay with (vs := vs) (answers := answers);
    [exact Hloop|assumption|assumption|now rewrite Ht1].
Qed.

(** X4.  Only every other turn counts.  In chat mode two samples with the
    same leading system turn whose remaining turns agree at the even
    positions make the unit behave identically: the assistant turns of the
    input are never read. *)
Theorem chat_reads_even_positions_only
    pool idx w messages messages' sys ctx turns turns' :
  chat args = true →
  leading messages sys ctx turns →
  leading messages' sys ctx turns' →
  every_other turns = every_other turns' →
  generate_data pool messages idx w = generate_data pool messages' idx w.
Proof.
  intros Hchat Hlead Hlead' Heven.
  assert (Hmode : ∀ c model_name w0,
            chat_mode c model_name messages w0
            = chat_mode c model_name messages' w0).
  { intros c model_name w0. unfold chat_mode, mbind, M_bind.
    rewrite (chat_replay_leading _ _ _ _ _ _ _ Hlead),
      (chat_replay_leading _ _ _ _ _ _ _ Hlead'), Heven. reflexivity. }
  destruct (select_base_url pool idx) as [u|e] eqn:Hsel.
  - destruct (models_list (length (requests w)) (unit_client u w))
      as [[|model_name others]|e] eqn:Hlist.
    + unfold generate_data. rewrite !bind_lift, Hsel.
      unfold mbind, M_bind, OpenAI, try_except, client_models_list.
      fold (unit_client u w). cbn [requests new_client]. now rewrite Hlist.
    + rewrite !(generate_data_listed _ _ _ _ _ _ _ Hsel Hlist), Hchat.
      apply Hmode.
    + unfold generate_data. rewrite !bind_lift, Hsel.
      unfold mbind, M_bind, OpenAI, try_except, client_models_list.
      fold (unit_client u w). cbn [requests new_client]. now rewrite Hlist.
  - unfold generate_data. now rewrite !bind_lift, Hsel.
Qed.

(** *** The model listing of a unit *)

(** X5.  Model listing failure.  In either mode, when the model listing of
    a unit fails with an error or comes back empty, the unit prints its
    notice and returns normally: it writes nothing, makes no further
    request, and nothing reaches the dispatcher. *)
Theorem listing_failure_abandons_sample pool messages idx u w :
  let c := unit_client u w in
  select_base_url pool idx = Ok u →
  lists_a_model (models_list (length (requests w)) c) = false →
  ∃ w',
    generate_data pool messages idx w = (Ok tt, w')
    ∧ fs w' = fs w
    ∧ requests w' = requests w ++ [ModelsList c]
    ∧ stdout w' = stdout w ++ [CouldNotFetch u].
Proof.
  intros c Hsel Hlist.
  exists (add_stdout (CouldNotFetch u)
            (log_request (ModelsList c) (new_client w))).
  split; [|repeat split].
  unfold generate_data. rewrite bind_lift, Hsel.
  unfold mbind, M_bind, OpenAI, try_except, client_models_list.
  fold (unit_client u w). fold c. cbn [requests new_client].
  destruct (models_list (length (requests w)) c) as [[|id ids]|e];
    [reflexivity|discriminate|reflexivity].
Qed.

(** *** Completion mode *)

Lemma drop_client_closed h w : h ∉ open_clients (drop_client h w).
Proof.
  unfold drop_client. cbn [open_clients]. intros H.
  apply list_elem_of_filter in H as [Hne _]. now apply Hne.
Qed.

Lemma completion_mode_input c model_name messages system value w :
  completion_input messages system value →
  completion_mode c model_name messages w
  = (resp ← try_except
              (client_completions_create c model_name
                 (completion_prompt model_name system value));
     match resp with
     | Raise e =>
         print (FailedToGenerate e
                  (completion_prompt model_name system value));;
         close c
     | Ok choices =>
         close c;;
         choice ← lift (getitem choices 0);
         append_output
           (dumps (text_record (completion_prompt model_name system value)
                     (strip (text choice))) +:+ str1 LF)
     end) w.
Proof.
  intros [m rest speaker v -> Hfrom Hs Hval
         |s m rest txt v -> [Hfrom Htext] Hval];
    unfold completion_mode; rewrite bind_lift;
    cbn [getitem lookup list_lookup]; rewrite bind_lift, Hfrom.
  - rewrite Hs. unfold mbind at 1, M_bind at 1, mret at 1, M_ret at 1.
    rewrite bind_lift. cbn [getitem lookup list_lookup].
    rewrite bind_lift, Hval. reflexivity.
  - cbn [eq_str]. change (String.eqb "system" "system") with true.
    unfold mbind at 1, M_bind at 1. rewrite bind_lift, Htext.
    unfold mret at 1, M_ret at 1.
    rewrite bind_lift. cbn [drop getitem lookup list_lookup].
    rewrite bind_lift, Hval. reflexivity.
Qed.

(** X6.  Completion mode, the normal path.  The prompt is rendered from
    the optional system text and the content of the turn that follows;
    when the backend answers the one completion request, the unit appends
    exactly the line of the record that holds the prompt followed by the
    stripped text of the first choice, and its client is closed. *)
Theorem completion_appends_prompt_and_answer
    pool idx u w model_name others messages system value choice more :
  let c := unit_client u w in
  let t := length (requests w) in
  let prompt := completion_prompt model_name system value in
  chat args = false →
  select_base_url pool idx = Ok u →
  models_list t c = Ok (model_name :: others) →
  appendable (fs w) (output_path args) →
  completion_input messages system value →
  completions_create (S t) c model_name prompt
    (max_tokens args) (temperature args) = Ok (choice :: more) →
  ∃ w',
    generate_data pool messages idx w = (Ok tt, w')
    ∧ fs w' = with_line (fs w)
                (dumps (text_record prompt (strip (text choice))))
    ∧ requests w'
      = requests w ++ [ModelsList c; CompletionCreate c model_name prompt]
    ∧ next_handle w ∉ open_clients w'.
Proof.
  intros c t prompt Hchat Hsel Hlist Happ Hin Hresp.
  set (w1 := log_request (ModelsList c) (new_client w)).
  assert (Ht1 : length (requests w1) = S t).
  { unfold w1, log_request. cbn. rewrite length_app. cbn. unfold t. lia. }
  rewrite (generate_data_listed _ _ _ _ _ _ _ Hsel Hlist), Hchat.
  fold c. fold w1.
  rewrite (completion_mode_input _ _ _ _ _ _ Hin). fold prompt.
  unfold mbind at 1, M_bind at 1, try_except, client_completions_create.
  rewrite Ht1, Hresp.
  unfold mbind at 1, M_bind at 1, close.
  rewrite bind_lift. cbn [getitem lookup list_lookup].
  rewrite append_output_ok by exact Happ.
  eexists. split; [reflexivity|]. split; [reflexivity|]. split.
  - cbn. now rewrite <- app_assoc.
  - cbn [open_clients set_fs]. apply (drop_client_closed (handle c)).
Qed.

(** X7.  Completion mode without an answer.  When the completion request
    fails with an error, the unit prints the error with the prompt, closes
    its client, writes nothing and returns normally; when the response
    carries no choice, the unit closes its client, writes nothing and ends
    with [IndexError]. *)
Theorem completion_failure_writes_nothing
    pool idx u w model_name others messages system value :
  let c := unit_client u w in
  let t := length (requests w) in
  let prompt := completion_prompt model_name system value in
  let response := completions_create (S t) c model_name prompt
                    (max_tokens args) (temperature args) in
  chat args = false →
  select_base_url pool idx = Ok u →
  models_list t c = Ok (model_name :: others) →
  completion_input messages system value →
  (∀ e, response = Raise e →
     ∃ w', generate_data pool messages idx w = (Ok tt, w')
           ∧ fs w' = fs w
           ∧ stdout w' = stdout w ++ [FailedToGenerate e prompt]
           ∧ next_handle w ∉ open_clients w')
  ∧ (response = Ok [] →
     ∃ w', generate_data pool messages idx w = (Raise IndexError, w')
           ∧ fs w' = fs w
           ∧ next_handle w ∉ open_clients w').
Proof.
  intros c t prompt response Hchat Hsel Hlist Hin.
  set (w1 := log_request (ModelsList c) (new_client w)).
  assert (Ht1 : length (requests w1) = S t).
  { unfold w1, log_request. cbn. rewrite length_app. cbn. unfold t. lia. }
  assert (Hgen : generate_data pool messages idx w
                 = match response with
                   | Raise e => print (FailedToGenerate e prompt);; close c
                   | Ok choices =>
                       close c;;
                       choice ← lift (getitem choices 0);
                       append_output
                         (dumps (text_record prompt (strip (text choice)))
                          +:+ str1 LF)
                   end (log_request (CompletionCreate c model_name prompt) w1)).
  { rewrite (generate_data_listed _ _ _ _ _ _ _ Hsel Hlist), Hchat.
    fold c. fold w1.
    rewrite (completion_mode_input _ _ _ _ _ _ Hin). fold prompt.
    unfold mbind at 1, M_bind at 1, try_except, client_completions_create.
    rewrite Ht1. reflexivity. }
  rewrite Hgen. split.
  - intros e ->. eexists. split; [reflexivity|]. split; [reflexivity|].
    split; [reflexivity|].
    cbn [snd]. apply (drop_client_closed (handle c)).
  - intros ->. eexists. split; [reflexivity|]. split; [reflexivity|].
    cbn [snd]. apply (drop_client_closed (handle c)).
Qed.

(** X8.  Completion mode reads two turns at most.  Two samples that agree
    on their first two turns make a completion-mode unit behave
    identically: whatever follows the first user turn is never read. *)
Theorem completion_reads_two_turns pool idx w messages messages' :
  chat args = false →
  take 2 messages = take 2 messages' →
  generate_data pool messages idx w = generate_data pool messages' idx w.
Proof.
  intros Hchat Htake.
  assert (Hmode : ∀ c model_name w0,
            completion_mode c model_name messages w0
            = completion_mode c model_name messages' w0).
  { intros c model_name w0.
    destruct messages as [|a [|b r]], messages' as [|a' [|b' r']];
      try discriminate; try reflexivity; cbn [take] in Htake;
      injection Htake as <-; try subst b'.
    - reflexivity.
    - unfold completion_mode. rewrite !bind_lift.
      cbn [getitem lookup list_lookup]. rewrite !bind_lift.
      destruct (subscript a "from") as [from|e]; [|reflexivity].
      unfold mbind at 1 3, M_bind at 1 3.
      destruct (eq_str from "system").
      + rewrite !bind_lift.
        destruct (subscript a "text") as [txt|e]; reflexivity.
      + reflexivity. }
  destruct (select_base_url pool idx) as [u|e] eqn:Hsel.
  - destruct (models_list (length (requests w)) (unit_client u w))
      as [[|model_name others]|e] eqn:Hlist.
    + unfold generate_data. rewrite !bind_lift, Hsel.
      unfold mbind, M_bind, OpenAI, try_except, client_models_list.
      fold (unit_client u w). cbn [requests new_client]. now rewrite Hlist.
    + rewrite !(generate_data_listed _ _ _ _ _ _ _ Hsel Hlist), Hchat.
      apply Hmode.
    + unfold generate_data. rewrite !bind_lift, Hsel.
      unfold mbind, M_bind, OpenAI, try_except, client_models_list.
      fold (unit_client u w). cbn [requests new_client]. now rewrite Hlist.
  - unfold generate_data. now rewrite !bind_lift, Hsel.
Qed.

(** What completion mode does to the client and the request log. *)
Lemma completion_mode_client c model_name messages w :
  let w' := (completion_mode c model_name messages w).2 in
  (open_clients w' = open_clients w ∧ requests w' = requests w)
  ∨ (open_clients w' = open_clients (drop_client (handle c) w)
     ∧ ∃ prompt,
         requests w' = requests w ++ [CompletionCreate c model_name prompt]).
Proof.
  set (Q := λ w w' : world,
    (open_clients w' = open_clients w ∧ requests w' = requests w)
    ∨ (open_clients w' = open_clients (drop_client (handle c) w)
       ∧ ∃ prompt,
           requests w' = requests w ++ [CompletionCreate c model_name prompt])).
  change (Q w (completion_mode c model_name messages w).2).
  assert (Hsame : ∀ w0, Q w0 w0) by (intros w0; left; split; reflexivity).
  unfold completion_mode.
  rewrite bind_lift.
  destruct (getitem messages 0) as [m0|e]; [|apply Hsame].
  rewrite bind_lift.
  destruct (subscript m0 "from") as [from|e]; [|apply Hsame].
  assert (Hrest : ∀ conv ms w,
    Q w
      ((m1 ← lift (getitem ms 0);
        value ← lift (subscript m1 "value");
        let conv0 := append_message conv (roles conv).1 (Some value) in
        let conv1 := append_message conv0 (roles conv0).2 None in
        let prompt := get_prompt conv1 in
        resp ← try_except (client_completions_create c model_name prompt);
        match resp with
        | Raise e => print (FailedToGenerate e prompt);; close c
        | Ok choices =>
            close c;;
            choice ← lift (getitem choices 0);
            let answer := strip (text choice) in
            append_output (dumps (text_record prompt answer) +:+ str1 LF)
        end) w).2).
  { clear - Hsame. intros conv ms w. rewrite bind_lift.
    destruct (getitem ms 0) as [m1|e]; [|apply Hsame].
    rewrite bind_lift.
    destruct (subscript m1 "value") as [value|e]; [|apply Hsame].
    cbv zeta.
    unfold mbind at 1, M_bind at 1, try_except, client_completions_create.
    set (prompt := get_prompt _).
    destruct (completions_create _ _ _ _ _ _) as [choices|e].
    - unfold mbind at 1, M_bind at 1, close.
      rewrite bind_lift.
      destruct (getitem choices 0) as [choice|e].
      + unfold append_output, update_fs.
        destruct (fs_append _ _ _); right;
          (split; [reflexivity|eexists; reflexivity]).
      + right. split; [reflexivity|eexists; reflexivity].
    - right. split; [reflexivity|eexists; reflexivity]. }
  unfold mbind at 1, M_bind at 1.
  destruct (eq_str from "system").
  - rewrite bind_lift.
    destruct (subscript m0 "text") as [txt|e]; [|apply Hsame].
    apply Hrest.
  - apply Hrest.
Qed.

(** X9.  Completion mode closes its client exactly when it got as far as
    the completion request.  For a unit whose model listing succeeded and
    whose handle was not open before, the client is still open at the end
    if and only if the completion request was never made, which is when an
    exception came first (an empty sample, a missing key). *)
Theorem completion_closes_iff_requested
    pool messages idx u w model_name others :
  let c := unit_client u w in
  let w' := (generate_data pool messages idx w).2 in
  chat args = false →
  select_base_url pool idx = Ok u →
  models_list (length (requests w)) c = Ok (model_name :: others) →
  next_handle w ∉ open_clients w →
  next_handle w ∈ open_clients w'
  ↔ requests w' = requests w ++ [ModelsList c].
Proof.
  intros c w' Hchat Hsel Hlist Hfresh. unfold w'.
  rewrite (generate_data_listed _ _ _ _ _ _ _ Hsel Hlist), Hchat.
  fold c.
  set (w1 := log_request (ModelsList c) (new_client w)).
  destruct (completion_mode_client c model_name messages w1)
    as [[Hopen Hreq]|[Hopen [prompt Hreq]]]; rewrite Hopen, Hreq.
  - split; [reflexivity|]. intros _. cbn. apply list_elem_of_here.
  - split.
    + intros Hin. exfalso. revert Hin.
      apply (drop_client_closed (handle c)).
    + intros Heq. exfalso. unfold w1, log_request in Heq. cbn in Heq.
      rewrite <- app_assoc in Heq. apply app_inv_head in Heq.
      discriminate.
Qed.

(** *** Probing, preparation and dispatch *)

Lemma probe_port_spec pool port w :
  let c := probe_client port w in
  let r := models_list (length (requests w)) c in
  ∃ w',
    probe_port pool port w
    = (Ok (pool ++ (if lists_a_model r then [Localhost port] else [])), w')
    ∧ requests w' = requests w ++ [ModelsList c]
    ∧ open_clients w' = next_handle w :: open_clients w
    ∧ next_handle w' = S (next_handle w)
    ∧ fs w' = fs w.
Proof.
  intros c r.
  unfold probe_port, mbind, M_bind, print, try_except, OpenAI,
    client_models_list.
  cbn [requests add_stdout new_client next_handle].
  fold (probe_client port w). fold c. fold r.
  destruct r as [[|id ids]|e]; cbn [lists_a_model];
    rewrite ?app_nil_r; eexists; (split; [reflexivity|]);
    repeat split; reflexivity.
Qed.

(** X10.  Probing.  The two ports are probed in order, each through a
    client of its own with a timeout of one second; a port enters the pool
    exactly when its listing succeeds with at least one model, whatever
    happened at the other port, so the pool keeps the port order.  Probing
    never fails and never touches the file system, and it leaves both
    clients open. *)
Theorem probing_keeps_answering_ports w :
  let c0 := probe_client 8000 w in
  let c1 := probe_client 8001 (new_client w) in
  let r0 := models_list (length (requests w)) c0 in
  let r1 := models_list (S (length (requests w))) c1 in
  ∃ w',
    probe_ports (range 8000 8002) [] w
    = (Ok ((if lists_a_model r0 then [Localhost 8000] else [])
           ++ (if lists_a_model r1 then [Localhost 8001] else [])), w')
    ∧ requests w' = requests w ++ [ModelsList c0; ModelsList c1]
    ∧ open_clients w' = S (next_handle w) :: next_handle w :: open_clients w
    ∧ fs w' = fs w.
Proof.
  intros c0 c1 r0 r1.
  change (range 8000 8002) with [8000; 8001]%Z.
  cbn [probe_ports].
  destruct (probe_port_spec [] 8000%Z w) as (w1 & Hrun1 & Hreq1 & Hopen1 & Hnext1 & Hfs1).
  rewrite (bind_ok _ _ _ _ _ Hrun1).
  destruct (probe_port_spec
              ([] ++ (if lists_a_model r0 then [Localhost 8000] else []))
              8001%Z w1) as (w2 & Hrun2 & Hreq2 & Hopen2 & Hnext2 & Hfs2).
  rewrite (bind_ok _ _ _ _ _ Hrun2).
  assert (Hc1 : probe_client 8001 w1 = c1).
  { unfold c1, probe_client. now rewrite Hnext1. }
  assert (Ht1 : length (requests w1) = S (length (requests w))).
  { rewrite Hreq1, length_app. cbn. lia. }
  rewrite Hc1, Ht1 in *.
  exists w2. split; [reflexivity|]. split; [|split].
  - rewrite Hreq2, Hreq1, <- app_assoc. reflexivity.
  - now rewrite Hopen2, Hopen1, Hnext1.
  - congruence.
Qed.

Lemma mkdir_from_last rest :
  ∀ f done f',
    mkdir_from f done rest = Ok f' → rest ≠ [] →
    f' !! (done ++ rest) = Some Dir.
Proof.
  induction rest as [|c rest' IH]; intros f done f' Hrun Hne; [easy|].
  cbn [mkdir_from] in Hrun.
  destruct rest' as [|c' rest''].
  - destruct (f !! (done ++ [c])) as [[|content]|] eqn:E;
      cbn in Hrun; try discriminate; injection Hrun as <-;
      [exact E|apply lookup_insert_eq].
  - replace (done ++ c :: c' :: rest'')
      with ((done ++ [c]) ++ c' :: rest'') by now rewrite <- app_assoc.
    destruct (f !! (done ++ [c])) as [[|content]|] eqn:E;
      try discriminate; eapply IH; try eassumption; discriminate.
Qed.

Lemma mkdir_from_subseteq rest :
  ∀ f done f', mkdir_from f done rest = Ok f' → f ⊆ f'.
Proof.
  induction rest as [|c rest' IH]; intros f done f' Hrun.
  - cbn in Hrun. now injection Hrun as <-.
  - cbn [mkdir_from] in Hrun.
    destruct (f !! (done ++ [c])) as [[|content]|] eqn:E.
    + eapply IH; eassumption.
    + discriminate.
    + etrans; [|eapply IH; eassumption]. now apply insert_subseteq.
Qed.

(** What the preparation of the hard-coded path can do. *)
Lemma prepare_file_path_cases w :
  (∃ e, prepare_file_path w = (Raise e, w)
        ∧ (e = FileExistsError ∨ e = NotADirectoryError))
  ∨ (∃ f', prepare_file_path w = (Ok tt, set_fs f' w)
           ∧ fs w ⊆ f'
           ∧ is_Some (stat f' file_path)
           ∧ (stat (fs w) file_path = None →
              stat f' file_path = Some (File EmptyString)
              ∧ stat f' (parent file_path) = Some Dir)).
Proof.
  set (Q := λ res : outcome unit * world,
    (∃ e, res = (Raise e, w)
          ∧ (e = FileExistsError ∨ e = NotADirectoryError))
    ∨ (∃ f', res = (Ok tt, set_fs f' w)
             ∧ fs w ⊆ f'
             ∧ is_Some (stat f' file_path)
             ∧ (stat (fs w) file_path = None →
                stat f' file_path = Some (File EmptyString)
                ∧ stat f' (parent file_path) = Some Dir))).
  change (Q (prepare_file_path w)).
  unfold prepare_file_path.
  unfold mbind at 1, M_bind at 1, path_exists.
  case_bool_decide as Hex.
  - right. exists (fs w). rewrite set_fs_same.
    split; [reflexivity|]. split; [reflexivity|]. split; [exact Hex|].
    intros Hnone. rewrite Hnone in Hex. now destruct Hex.
  - assert (Habsent : fs w !! file_path = None).
    { destruct (fs w !! file_path) eqn:E; [|reflexivity].
      exfalso. apply Hex. unfold stat, file_path. unfold file_path in E.
      rewrite E. eauto. }
    unfold mbind, M_bind, update_fs, mkdir_parents.
    destruct (mkdir_from (fs w) [] (parent file_path)) as [f1|e] eqn:Hrun.
    + right.
      pose proof (mkdir_from_subseteq _ _ _ _ Hrun) as Hsub.
      pose proof (mkdir_from_last _ _ _ _ Hrun ltac:(discriminate)) as Hdir.
      assert (Habsent1 : f1 !! file_path = None).
      { rewrite <- Habsent. apply (mkdir_from_elsewhere _ _ _ _ _ Hrun).
        intros k Heq. apply (f_equal length) in Heq.
        cbn [app] in Heq. rewrite length_take in Heq. cbn in Heq. lia. }
      exists (<[file_path := File EmptyString]> f1).
      cbn [fs set_fs]. unfold fs_touch, create_at.
      change (stat f1 file_path) with (f1 !! file_path). rewrite Habsent1.
      change (stat f1 (parent file_path)) with (f1 !! ([] ++ parent file_path)).
      rewrite Hdir. split; [reflexivity|].
      split; [etrans; [exact Hsub|now apply insert_subseteq]|].
      assert (Hfile : stat (<[file_path := File EmptyString]> f1) file_path
                      = Some (File EmptyString)).
      { change (stat ?f file_path) with (f !! file_path).
        apply lookup_insert_eq. }
      split; [rewrite Hfile; eauto|]. intros _. split; [exact Hfile|].
      change (stat ?f (parent file_path)) with (f !! ([] ++ parent file_path)).
      rewrite lookup_insert_ne by discriminate. exact Hdir.
    + left. exists e. split; [reflexivity|].
      clear - Hrun. revert Hrun. generalize (fs w) ([] : path).
      induction (parent file_path) as [|c rest' IH]; intros f done Hrun;
        [discriminate|].
      cbn [mkdir_from] in Hrun.
      destruct (f !! (done ++ [c])) as [[|content]|]; eauto.
      injection Hrun as <-. destruct rest'; auto.
Qed.

(** X11.  Preparing the hard-coded path.  When no regular file stands in
    the way, the preparation succeeds; afterwards the hard-coded file
    exists, freshly created empty under its directories if it was missing,
    everything that existed before is unchanged, and preparing again
    changes nothing. *)
Theorem prepare_file_path_creates_once w :
  clear_way (fs w) (parent file_path) →
  ∃ w',
    prepare_file_path w = (Ok tt, w')
    ∧ fs w ⊆ fs w'
    ∧ is_Some (stat (fs w') file_path)
    ∧ (stat (fs w) file_path = None →
       stat (fs w') file_path = Some (File EmptyString)
       ∧ stat (fs w') (parent file_path) = Some Dir)
    ∧ prepare_file_path w' = (Ok tt, w').
Proof.
  intros Hclear.
  destruct (prepare_file_path_spec w Hclear) as (f0 & Hrun0 & _).
  destruct (prepare_file_path_cases w)
    as [(e & Hrun & _)|(f' & Hrun & Hsub & Hsome & Hnew)];
    [rewrite Hrun0 in Hrun; discriminate|].
  exists (set_fs f' w). cbn [fs set_fs].
  split; [exact Hrun|]. split; [exact Hsub|]. split; [exact Hsome|].
  split; [exact Hnew|].
  unfold prepare_file_path, mbind, M_bind, path_exists. cbn [fs set_fs].
  now rewrite bool_decide_eq_true_2.
Qed.

(** *** The output log *)


(** X13.  One run, an append-only log.  A run that ends normally leaves in
    the output file its previous text followed by the lines of the records
    its units wrote, at most one per submission; it holds one future per
    submission; and when the previous text was made of whole lines, the
    number of lines afterwards is the resume offset plus the number of
    records written. *)
Theorem run_only_appends_records data w r w' :
  main data w = (Ok r, w') →
  ∃ records,
    output_text w' = output_text w +:+ record_lines records
    ∧ length records ≤ length (submitted r)
    ∧ length (futures r) = length (submitted r)
    ∧ (ends_lines (output_text w) = true →
       count_lines (output_text w') = start_idx_of r + length records).
Proof.
  intros Hmain.
  destruct (main_start_idx _ _ _ _ Hmain) as (Hstart & records & Htext & Hlen).
  destruct (main_inv _ _ _ _ Hmain) as (w1 & w2 & w3 & _ & _ & _ & Hrun & Hsub).
  exists records. split; [exact Htext|]. split; [exact Hlen|]. split.
  - destruct (run_units_total (live_pool r)
                (submissions data (start_idx_of r)) w3)
      as (rs & w4 & Hrun' & Hlen').
    rewrite Hrun in Hrun'. injection Hrun' as <- <-. now rewrite Hsub.
  - intros Hends. rewrite Htext, count_lines_records by assumption.
    now rewrite Hstart.
Qed.


(** *** The resume step at its edges *)

(** X15.  No output file yet.  When the output path does not exist and is
    not on the hard-coded path, the run starts at offset 0 and submits
    every sample of the data, in order, under its own position. *)
Theorem missing_output_submits_everything data w :
  stat (fs w) (output_path args) = None →
  (∀ k, output_path args ≠ take k file_path) →
  clear_way (fs w) (parent file_path) →
  (0 < num_threads args)%Z →
  ∃ r w',
    main data w = (Ok r, w')
    ∧ start_idx_of r = 0
    ∧ task_messages <$> submitted r = conversations <$> data
    ∧ task_idx <$> submitted r = seq 0 (length data).
Proof.
  intros Hstat Hoff Hclear Hthreads.
  destruct (probe_ports_fs (range 8000 8002) [] w) as (pool & w1 & Hprobe & Hfs1).
  set (w1' := add_stdout (ApiBasePool pool) w1).
  destruct (prepare_file_path_spec w1') as (f' & Hprep & _).
  { cbn [fs w1' add_stdout]. now rewrite Hfs1. }
  assert (Hstat2 : stat (fs (set_fs f' w1')) (output_path args) = None).
  { pose proof (prepare_file_path_elsewhere w1' (output_path args) Hoff) as H.
    rewrite Hprep in H. cbn [snd] in H. rewrite H.
    cbn [fs w1' add_stdout]. now rewrite Hfs1. }
  pose proof (resume_offset_missing _ Hstat2) as Hres.
  destruct (run_units_total pool (submissions data 0) (set_fs f' w1'))
    as (rs & w4 & Hrun & _).
  pose proof (main_steps _ _ _ _ _ _ _ _ _ Hprobe Hprep Hres Hthreads Hrun)
    as Hmain.
  eexists _, w4. split; [exact Hmain|].
  cbn [start_idx_of submitted]. split; [reflexivity|].
  split; [now rewrite submissions_messages|].
  rewrite submissions_indices. f_equal. lia.
Qed.

Lemma probing_ports_requests w :
  ∃ pool w1,
    probe_ports (range 8000 8002) [] w = (Ok pool, w1)
    ∧ fs w1 = fs w
    ∧ ∃ c0 c1, requests w1 = requests w ++ [ModelsList c0; ModelsList c1].
Proof.
  change (range 8000 8002) with [8000; 8001]%Z. cbn [probe_ports].
  destruct (probe_port_spec [] 8000%Z w)
    as (w1 & Hrun1 & Hreq1 & _ & _ & Hfs1).
  rewrite (bind_ok _ _ _ _ _ Hrun1).
  match type of Hrun1 with _ = (Ok ?p, _) => set (pool1 := p) in * end.
  destruct (probe_port_spec pool1 8001%Z w1)
    as (w2 & Hrun2 & Hreq2 & _ & _ & Hfs2).
  rewrite (bind_ok _ _ _ _ _ Hrun2).
  eexists _, w2. split; [reflexivity|]. split; [congruence|].
  eexists _, _. rewrite Hreq2, Hreq1, <- app_assoc. reflexivity.
Qed.

(** X16.  An output path that is a directory.  When the output path names
    a directory, the script ends at the resume step with
    [IsADirectoryError], exit code 1, before anything is submitted: no
    unit runs and only the two probes reach a backend. *)
Theorem directory_output_path_ends_the_script data w :
  stat (fs w) (output_path args) = Some Dir →
  clear_way (fs w) (parent file_path) →
  ∃ w',
    main data w = (Raise IsADirectoryError, w')
    ∧ exit_code (main data w).1 = 1%Z
    ∧ length (requests w') = length (requests w) + 2.
Proof.
  intros Hstat Hclear.
  destruct (probing_ports_requests w)
    as (pool & w1 & Hprobe & Hfs1 & c0 & c1 & Hreq1).
  set (w1' := add_stdout (ApiBasePool pool) w1).
  destruct (prepare_file_path_spec w1') as (f' & Hprep & Hsub).
  { cbn [fs w1' add_stdout]. now rewrite Hfs1. }
  set (w2 := set_fs f' w1') in *.
  assert (Hstat2 : stat (fs w2) (output_path args) = Some Dir).
  { cbn [fs w2 set_fs]. unfold stat in *.
    destruct (output_path args) as [|p0 ps]; [reflexivity|].
    eapply lookup_weaken; [|exact Hsub].
    cbn [fs w1' add_stdout]. now rewrite Hfs1. }
  assert (Hres : resume_offset w2 = (Raise IsADirectoryError, w2)).
  { unfold resume_offset, mbind, M_bind, path_exists, read_text, fs_read.
    rewrite bool_decide_eq_true_2 by (rewrite Hstat2; eauto).
    now rewrite Hstat2. }
  assert (Hmain : main data w = (Raise IsADirectoryError, w2)).
  { unfold main. rewrite (bind_ok _ _ _ _ _ Hprobe).
    unfold mbind at 1, M_bind at 1, print. fold w1'.
    rewrite (bind_ok _ _ _ _ _ Hprep).
    now rewrite (bind_raise _ _ _ _ _ Hres). }
  exists w2. split; [exact Hmain|]. rewrite Hmain.
  split; [reflexivity|]. cbn [requests w2 set_fs w1' add_stdout].
  rewrite Hreq1, length_app. reflexivity.
Qed.

(** *** Clients of a chat-mode run *)

Lemma chat_mode_next_handle c model_name messages w :
  next_handle (chat_mode c model_name messages w).2 = next_handle w.
Proof.
  unfold chat_mode, mbind, M_bind.
  pose proof (chat_replay_only_requests (λ _, True) c model_name messages w I)
    as (_ & _ & Hnext & _).
  destruct (chat_replay c model_name messages w)
    as [[[[converted [|o output_conv]]|]|e] w0]; cbn [snd] in *;
    try exact Hnext.
  unfold append_output, update_fs. now destruct (fs_append _ _ _).
Qed.

Lemma chat_unit_clients pool messages idx u w :
  chat args = true →
  select_base_url pool idx = Ok u →
  open_clients (generate_data pool messages idx w).2
  = next_handle w :: open_clients w
  ∧ next_handle (generate_data pool messages idx w).2 = S (next_handle w).
Proof.
  intros Hchat Hsel.
  destruct (models_list (length (requests w)) (unit_client u w))
    as [[|model_name others]|e] eqn:Hlist.
  - unfold generate_data. rewrite bind_lift, Hsel.
    unfold mbind, M_bind, OpenAI, try_except, client_models_list.
    fold (unit_client u w). cbn [requests new_client]. rewrite Hlist.
    cbn. split; reflexivity.
  - rewrite (generate_data_listed _ _ _ _ _ _ _ Hsel Hlist), Hchat.
    rewrite chat_mode_open_clients, chat_mode_next_handle. cbn.
    split; reflexivity.
  - unfold generate_data. rewrite bind_lift, Hsel.
    unfold mbind, M_bind, OpenAI, try_except, client_models_list.
    fold (unit_client u w). cbn [requests new_client]. rewrite Hlist.
    cbn. split; reflexivity.
Qed.

Lemma select_base_url_total pool idx :
  pool ≠ [] → ∃ u, select_base_url pool idx = Ok u.
Proof.
  intros Hpool. unfold select_base_url, getitem.
  destruct pool as [|u0 pool']; [contradiction|]. cbn [length].
  assert (Hlt : idx mod S (length pool') < length (u0 :: pool')).
  { cbn [length]. apply Nat.mod_upper_bound. lia. }
  destruct (lookup_lt_is_Some_2 _ _ Hlt) as [u Hu].
  exists u. now rewrite Hu.
Qed.

Lemma run_units_chat_clients pool tasks :
  chat args = true → pool ≠ [] →
  ∀ w,
    open_clients (run_units pool tasks w).2
    = reverse (seq (next_handle w) (length tasks)) ++ open_clients w
    ∧ next_handle (run_units pool tasks w).2 = next_handle w + length tasks.
Proof.
  intros Hchat Hpool. induction tasks as [|t tasks' IH]; intros w.
  - cbn. split; [reflexivity|lia].
  - set (w1 := (generate_data pool (task_messages t) (task_idx t) w).2).
    destruct (select_base_url_total pool (task_idx t) Hpool) as [u Hsel].
    destruct (chat_unit_clients pool (task_messages t) (task_idx t) u w
                Hchat Hsel) as [Hopen Hnext].
    fold w1 in Hopen, Hnext.
    destruct (IH w1) as [Hopen' Hnext'].
    destruct (run_units_total pool tasks' w1) as (rs & w2 & Hrun & _).
    rewrite Hrun in Hopen', Hnext'. cbn [snd] in Hopen', Hnext'.
    assert (Hw : (run_units pool (t :: tasks') w).2 = w2).
    { cbn [run_units]. unfold mbind at 1, M_bind at 1.
      rewrite try_except_run. cbn [fst snd]. fold w1.
      now rewrite (bind_ok _ _ _ _ _ Hrun). }
    rewrite Hw, Hopen', Hnext', Hopen, Hnext. cbn [length seq].
    split; [|lia].
    rewrite reverse_cons, <- app_assoc. reflexivity.
Qed.

Lemma resume_offset_clients w start_idx w' :
  resume_offset w = (Ok start_idx, w') →
  open_clients w' = open_clients w ∧ next_handle w' = next_handle w.
Proof.
  unfold resume_offset, mbind, M_bind, path_exists, read_text, fs_read.
  case_bool_decide as Hex.
  - destruct (stat (fs w) (output_path args)) as [[|content]|];
      try discriminate.
    cbn. intros H. injection H as <- <-. split; reflexivity.
  - intros H. injection H as <- <-. split; reflexivity.
Qed.

(** X20.  The clients of a chat-mode run.  With a backend in the pool, a
    chat-mode run that ends normally has closed no client: the two clients
    of the probes and the client of every submitted unit, one per
    submission, are all still open at the end, on top of those open
    before. *)
Theorem chat_run_closes_no_client data w r w' :
  chat args = true →
  main data w = (Ok r, w') →
  live_pool r ≠ [] →
  open_clients w'
  = reverse (seq (next_handle w) (2 + length (submitted r)))
    ++ open_clients w.
Proof.
  intros Hchat Hmain Hpool.
  destruct (main_inv _ _ _ _ Hmain)
    as (w1 & w2 & w3 & Hprobe & Hprep & Hres & Hrun & Hsub).
  assert (H1 : open_clients w1 = S (next_handle w) :: next_handle w
                                 :: open_clients w
               ∧ next_handle w1 = S (S (next_handle w))).
  { revert Hprobe. change (range 8000 8002) with [8000; 8001]%Z.
    cbn [probe_ports].
    destruct (probe_port_spec [] 8000%Z w)
      as (wa & Hrun1 & _ & Hopen1 & Hnext1 & _).
    rewrite (bind_ok _ _ _ _ _ Hrun1).
    match type of Hrun1 with _ = (Ok ?p, _) => set (pool1 := p) in * end.
    destruct (probe_port_spec pool1 8001%Z wa)
      as (wb & Hrun2 & _ & Hopen2 & Hnext2 & _).
    rewrite (bind_ok _ _ _ _ _ Hrun2).
    intros H. injection H as _ <-.
    rewrite Hopen2, Hnext2, Hopen1, Hnext1. split; reflexivity. }
  destruct H1 as [Hopen1 Hnext1].
  assert (H2 : open_clients w2 = open_clients w1
               ∧ next_handle w2 = next_handle w1).
  { destruct (prepare_file_path_cases
                (add_stdout (ApiBasePool (live_pool r)) w1))
      as [(e & He & _)|(f' & Hf' & _)]; rewrite Hprep in *.
    - discriminate.
    - injection Hf' as ->. split; reflexivity. }
  destruct H2 as [Hopen2 Hnext2].
  destruct (resume_offset_clients _ _ _ Hres) as [Hopen3 Hnext3].
  destruct (run_units_chat_clients (live_pool r)
              (submissions data (start_idx_of r)) Hchat Hpool w3)
    as [Hopen4 _].
  rewrite Hrun in Hopen4. cbn [snd] in Hopen4.
  rewrite Hopen4, Hopen3, Hopen2, Hopen1, Hnext3, Hnext2, Hnext1, Hsub.
  cbn [Nat.add seq]. rewrite !reverse_cons, <- !app_assoc. reflexivity.
Qed.

End Generate.

(** ** Properties of the log reader *)

Lemma file_lines_from_length n :
  ∀ text cur,
    String.length text ≤ n →
    length (file_lines_from cur text)
    = count_lines_from (match cur with EmptyString => false | _ => true end)
        text.
Proof.
  induction n as [|n IH]; intros text cur Hlen.
  - destruct text; [|cbn in Hlen; lia]. now destruct cur.
  - destruct text as [|c rest]; [now destruct cur|].
    cbn in Hlen. cbn [file_lines_from count_lines_from].
    destruct (Ascii.eqb c LF); [cbn; f_equal; apply (IH rest EmptyString); lia|].
    destruct (Ascii.eqb c CR).
    + destruct rest as [|c' rest']; [reflexivity|].
      cbn in Hlen.
      destruct (Ascii.eqb c' LF); cbn [length]; f_equal.
      * apply (IH rest' EmptyString). lia.
      * apply (IH (String c' rest') EmptyString). cbn. lia.
    + rewrite (IH rest (cur +:+ str1 c)) by lia.
      destruct cur; reflexivity.
Qed.

Lemma file_lines_length text :
  length (file_lines text) = count_lines text.
Proof. apply (file_lines_from_length (String.length text)). lia. Qed.

Lemma file_lines_one_line s :
  one_line s = true →
  ∀ cur t,
    file_lines_from cur (s +:+ String LF t)
    = (cur +:+ s +:+ str1 LF) :: file_lines_from EmptyString t.
Proof.
  induction s as [|c s IH]; intros Hs cur t.
  - rewrite append_nil. reflexivity.
  - cbn in Hs. apply andb_prop in Hs as [Hc Hs].
    apply andb_prop in Hc as [Hlf Hcr]. apply negb_true_iff in Hlf, Hcr.
    rewrite append_cons. cbn [file_lines_from]. rewrite Hlf, Hcr.
    rewrite IH by exact Hs. f_equal.
    rewrite append_assoc. reflexivity.
Qed.

Lemma file_lines_records records :
  file_lines (record_lines records)
  = (λ v, dumps v +:+ str1 LF) <$> records.
Proof.
  unfold file_lines. induction records as [|v records' IH]; [reflexivity|].
  cbn [record_lines fmap list_fmap].
  change (dumps v +:+ str1 LF +:+ record_lines records')
    with (dumps v +:+ String LF (record_lines records')).
  rewrite (file_lines_one_line _ (dumps_one_line v)), IH. reflexivity.
Qed.

Lemma dumps_starts_nonspace v :
  ∃ c rest, dumps v = String c rest ∧ isspace c = false.
Proof.
  destruct v as [|[]|n|s|items|fields]; cbn [dumps];
    try (eexists _, _; split; [reflexivity|reflexivity]).
  unfold NilZero.string_of_int.
  assert (Hu : ∀ d, ∃ c rest, NilZero.string_of_uint d = String c rest
                              ∧ isspace c = false).
  { intros d. destruct d; cbn; eexists _, _; split; reflexivity. }
  destruct (Z.to_int n) as [d|d]; [apply Hu|].
  eexists _, _; split; reflexivity.
Qed.

Lemma rstrip_nonspace c s : isspace c = false → rstrip (String c s) ≠ EmptyString.
Proof.
  intros Hc. cbn [rstrip]. destruct (rstrip s); [now rewrite Hc|discriminate].
Qed.

Lemma nonblank_record v : nonblank (dumps v +:+ str1 LF) = true.
Proof.
  destruct (dumps_starts_nonspace v) as (c & rest & -> & Hc).
  unfold nonblank, strip. rewrite append_cons. cbn [lstrip]. rewrite Hc.
  pose proof (rstrip_nonspace c (rest +:+ str1 LF) Hc) as Hne.
  now destruct (rstrip (String c (rest +:+ str1 LF))).
Qed.

Lemma traverse_length {A B} (f : A → outcome B) l ys :
  traverse f l = Ok ys → length ys = length l.
Proof.
  revert ys. induction l as [|x l IH]; intros ys H; cbn in H.
  - now injection H as <-.
  - destruct (f x); [|discriminate].
    destruct (traverse f l) as [zs|]; [|discriminate].
    injection H as <-. cbn. f_equal. now apply IH.
Qed.

Lemma traverse_inverse {A B} (f : A → outcome B) (g : B → A) ys :
  Forall (λ y, f (g y) = Ok y) ys → traverse f (g <$> ys) = Ok ys.
Proof.
  induction 1 as [|y ys Hy _ IH]; [reflexivity|].
  cbn. now rewrite Hy, IH.
Qed.

Lemma selected_lines_debug lines :
  selected_lines true lines = selected_lines false (take 20 lines).
Proof.
  unfold selected_lines.
  assert (H : ∀ k l,
            snd <$> filter (λ il : nat * string,
                              nonblank il.2 && (il.1 <? 20) = true)
                      (imap (λ i line, (k + i, line)) l)
            = filter (λ line, nonblank line = true) (take (20 - k) l)).
  { intros k l. revert k. induction l as [|x l IH]; intros k.
    - now rewrite take_nil.
    - rewrite imap_cons. cbn [fst snd].
      assert (Himap : imap ((λ i line, (k + i, line)) ∘ S) l
                      = imap (λ i line, (S k + i, line)) l).
      { apply imap_ext. intros i y _. cbn. f_equal. lia. }
      rewrite Himap, filter_cons. cbn [fst snd].
      rewrite Nat.add_0_r.
      destruct (Nat.ltb_spec k 20) as [Hk|Hk].
      + replace (20 - k) with (S (20 - S k)) by lia.
        cbn [take]. rewrite filter_cons, <- IH.
        rewrite andb_true_r.
        destruct (decide (nonblank x = true)) as [Hx|Hx].
        * reflexivity.
        * reflexivity.
      + rewrite andb_false_r, decide_False by discriminate.
        rewrite IH. replace (20 - k) with 0 by lia.
        replace (20 - S k) with 0 by lia. reflexivity. }
  exact (H 0 lines).
Qed.

(** X17.  Reading back a log of records.  On a file that holds the lines
    of [records], as the generation script writes them, [_read_jsonl]
    hands exactly these lines to [json.loads], one per record and in
    order, debug mode aside; so it returns [records] whenever [json.loads]
    inverts [json.dumps] on them, and the number of lines the resume step
    counts in that file is the number of records. *)
Theorem read_jsonl_reads_each_record loads f p records :
  fs_read f p = Ok (record_lines records) →
  read_jsonl loads f p false
  = traverse loads ((λ v, dumps v +:+ str1 LF) <$> records)
  ∧ count_lines (record_lines records) = length records
  ∧ (Forall (λ v, loads (dumps v +:+ str1 LF) = Ok v) records →
     read_jsonl loads f p false = Ok records).
Proof.
  intros Hread.
  assert (Hsel : selected_lines false (file_lines (record_lines records))
                 = (λ v, dumps v +:+ str1 LF) <$> records).
  { rewrite file_lines_records. unfold selected_lines. clear Hread.
    induction records as [|v records' IH]; [reflexivity|].
    cbn [fmap list_fmap]. rewrite filter_cons.
    rewrite decide_True by apply nonblank_record.
    f_equal. exact IH. }
  assert (Hrun : read_jsonl loads f p false
                 = traverse loads ((λ v, dumps v +:+ str1 LF) <$> records)).
  { unfold read_jsonl. now rewrite Hread, Hsel. }
  split; [exact Hrun|]. split.
  - rewrite <- file_lines_length, file_lines_records. apply length_fmap.
  - intros Hinv. rewrite Hrun. now apply traverse_inverse.
Qed.

(** X18.  The data set is never longer than the resume offset.  Whatever
    the file holds, what [_read_jsonl] returns has at most as many entries
    as the file has lines, the number the generation script resumes from:
    blank lines count for the resume step and are skipped by the reader.
    In debug mode there are at most 20 entries. *)
Theorem read_jsonl_at_most_line_count loads f p debug content rs :
  fs_read f p = Ok content →
  read_jsonl loads f p debug = Ok rs →
  length rs ≤ count_lines content
  ∧ (debug = true → length rs ≤ 20).
Proof.
  intros Hread Hrun. unfold read_jsonl in Hrun. rewrite Hread in Hrun.
  apply traverse_length in Hrun. rewrite Hrun.
  rewrite <- file_lines_length.
  destruct debug.
  - rewrite selected_lines_debug. unfold selected_lines.
    pose proof (length_filter (λ line, nonblank line = true)
                  (take 20 (file_lines content))) as Hle.
    rewrite length_take in Hle. split; [lia|]. intros _. lia.
  - unfold selected_lines.
    pose proof (length_filter (λ line, nonblank line = true)
                  (file_lines content)) as Hle.
    split; [exact Hle|discriminate].
Qed.

(** X19.  Debug mode reads the first 20 lines.  With [debug] set,
    [_read_jsonl] returns what it would return without it on the first 20
    lines of the file (20, not the 10 of its comment): blank lines among
    them use up the allowance, and a line that does not parse is an error
    only when it is among them. *)
Theorem read_jsonl_debug_first_twenty loads f p :
  read_jsonl loads f p true
  = match fs_read f p with
    | Raise e => Raise e
    | Ok content =>
        traverse loads (selected_lines false (take 20 (file_lines content)))
    end.
Proof.
  unfold read_jsonl. destruct (fs_read f p); [|reflexivity].
  now rewrite selected_lines_debug.
Qed.

(** ** The script on the example inputs *)

Abbreviation unit_at models chats a :=
  (generate_data unit models chats stub_completions string stub_template
     stub_set_system stub_roles stub_append stub_prompt a).

Abbreviation main_at models chats a :=
  (main unit models chats stub_completions string stub_template
     stub_set_system stub_roles stub_append stub_prompt a).

(** C3, counterexample.  No server answers the probes, so the pool is
    empty; yet the script prints nothing but its usual lines, submits the
    three samples, keeps a [ZeroDivisionError] in each future, and ends
    with exit code 0. *)
Lemma empty_pool_still_dispatches :
  let run := main_at unreachable chat_four chat_args three_samples empty_world in
  exit_code run.1 = 0%Z
  ∧ (∃ r, run.1 = Ok r
          ∧ live_pool r = []
          ∧ task_idx <$> submitted r = [0; 1; 2]
          ∧ futures r = [Raise ZeroDivisionError; Raise ZeroDivisionError;
                         Raise ZeroDivisionError])
  ∧ stdout run.2 = [CheckingPort 8000; CheckingPort 8001; ApiBasePool []].
Proof.
  vm_compute. split; [reflexivity|]. split; [|reflexivity].
  eexists. repeat split.
Qed.

(** C5, counterexample.  [stray_sample] has an assistant turn at its third
    expected-user position.  The second chat response is cut at the length
    limit, so the loop stops before it reaches that turn, and the unit
    writes the record of the first pair. *)
Lemma stray_turn_record_written :
  let run := unit_at serving chat_then_cut chat_args [Localhost 8000]
               stray_sample 0 empty_world in
  every_other stray_sample !! 2
  = Some [("from", JStr "gpt"); ("value", JStr "stray")]
  ∧ run.1 = Ok tt
  ∧ fs run.2 !! ["out.jsonl"] = Some (File (first_pair_line +:+ str1 LF)).
Proof. vm_compute. repeat split. Qed.

(** C6, counterexample.  For [be_terse_sample] the first chat request
    (the second request of the unit, after the model listing) fails, yet
    the unit writes one line: the record that holds the system turn. *)
Lemma failed_first_call_still_writes :
  let run := unit_at serving chat_down chat_args [Localhost 8000]
               be_terse_sample 0 empty_world in
  run.1 = Ok tt
  ∧ is_generation <$> requests run.2 = [false; true]
  ∧ fs run.2 !! ["out.jsonl"] = Some (File (system_only_line +:+ str1 LF))
  ∧ count_lines (system_only_line +:+ str1 LF) = 1.
Proof. vm_compute. repeat split. Qed.

(** C7, at the failing input.  The output path lies under directories that
    do not exist.  The run starts at offset 0, but what gets created is the
    hard-coded [file_path] with its directories; the output path and its
    directories are still missing when the unit opens the output file, and
    the unit stops with [FileNotFoundError]. *)
Lemma output_directories_not_created :
  let run := main_at serving chat_four nested_args be_terse_data empty_world in
  (∃ r, run.1 = Ok r ∧ start_idx_of r = 0
        ∧ futures r = [Raise FileNotFoundError])
  ∧ stat (fs run.2) file_path = Some (File EmptyString)
  ∧ stat (fs run.2) (parent file_path) = Some Dir
  ∧ stat (fs run.2) (output_path nested_args) = None
  ∧ stat (fs run.2) (parent (output_path nested_args)) = None.
Proof.
  vm_compute. split; [|repeat split]. eexists. repeat split.
Qed.

(** C8, at the failing input.  In chat mode the unit for [be_terse_sample]
    returns normally and its client, handle 0, is still open; the same unit
    in completion mode has closed it. *)
Lemma chat_unit_leaves_client_open :
  let chat_run := unit_at serving chat_four chat_args [Localhost 8000]
                    be_terse_sample 0 empty_world in
  let completion_run := unit_at serving chat_four completion_args
                          [Localhost 8000] be_terse_sample 0 empty_world in
  chat_run.1 = Ok tt ∧ open_clients chat_run.2 = [0]
  ∧ completion_run.1 = Ok tt ∧ open_clients completion_run.2 = [].
Proof. vm_compute. repeat split. Qed.

(** A statement of the section at the stub backends. *)
Abbreviation at_stubs statement models chats a :=
  (statement unit models chats stub_completions string stub_template
     stub_set_system stub_roles stub_append stub_prompt a).

(** The resume theorem on a run that finds two lines in the output file:
    it starts at 2 and submits the third sample alone. *)
Lemma resume_starts_at_line_count_witness :
  ∃ r w',
    main_at serving chat_four chat_args three_samples resumed_world = (Ok r, w')
    ∧ start_idx_of r = 2
    ∧ task_idx <$> submitted r = [2].
Proof.
  destruct (at_stubs resume_starts_at_line_count serving chat_four chat_args
              three_samples resumed_world
              ("{}" +:+ str1 LF +:+ "{}" +:+ str1 LF))
    as (r & w' & Hmain & Hstart & _ & Hidx & _).
  - reflexivity.
  - intros k c Hk. destruct k as [|k]; [lia|].
    cbn. rewrite lookup_singleton_ne; discriminate.
  - reflexivity.
  - exists r, w'. split; [exact Hmain|]. split; [exact Hstart|exact Hidx].
Defined.

(** The assignment theorem on the third sample and a pool of two: index 2
    goes to the first backend. *)
Lemma backend_assignment_round_robin_witness :
  select_base_url [Localhost 8000; Localhost 8001] 2 = Ok (Localhost 8000).
Proof.
  destruct (at_stubs backend_assignment_round_robin serving chat_four
              chat_args three_samples 1 [Localhost 8000; Localhost 8001] 1
              {| task_messages := stray_sample; task_idx := 2 |})
    as (u & _ & Hu & Hsel & _).
  - discriminate.
  - reflexivity.
  - cbn in Hu. injection Hu as <-. exact Hsel.
Defined.

(** The empty-pool theorem on the run in which no server answers. *)
Lemma empty_pool_runs_to_exit_zero_witness :
  exit_code (main_at unreachable chat_four chat_args three_samples
               empty_world).1 = 0%Z.
Proof.
  pose (w1 := (probe_ports unreachable (range 8000 8002) [] empty_world).2).
  pose (w2 := (prepare_file_path (add_stdout (ApiBasePool []) w1)).2).
  pose (w3 := (resume_offset unit chat_args w2).2).
  destruct (at_stubs empty_pool_runs_to_exit_zero unreachable chat_four
              chat_args three_samples empty_world w1 w2 0 w3)
    as (r & _ & Hexit & _).
  - vm_compute. reflexivity.
  - vm_compute. reflexivity.
  - vm_compute. reflexivity.
  - reflexivity.
  - exact Hexit.
Defined.

(** The truncation theorem on [two_question_sample]: the first question is
    answered, the second response is cut, and the line written is the one
    of the system turn and the first pair. *)
Lemma chat_truncation_keeps_completed_pairs_witness :
  ∃ w',
    unit_at serving chat_then_cut chat_args [Localhost 8000]
      two_question_sample 0 empty_world = (Ok tt, w')
    ∧ fs w' !! ["out.jsonl"] = Some (File (be_terse_line +:+ str1 LF)).
Proof.
  destruct (at_stubs chat_truncation_keeps_completed_pairs serving
              chat_then_cut chat_args [Localhost 8000] 0 (Localhost 8000)
              empty_world "vicuna" [] two_question_sample
              [[("from", JStr "system"); ("text", JStr "be terse")]]
              [system_message (JStr "be terse")]
              (drop 1 two_question_sample)
              [[("from", JStr "human"); ("value", JStr "2+2?")]]
              [("from", JStr "human"); ("value", JStr "3+3?")]
              []
              [JStr "2+2?"] (JStr "3+3?") ["4"])
    as (w2 & w' & _ & _ & Hrun & Hfs).
  - reflexivity.
  - reflexivity.
  - reflexivity.
  - right. split; reflexivity.
  - apply leading_system; [reflexivity|]. split; reflexivity.
  - reflexivity.
  - repeat constructor.
  - split; reflexivity.
  - reflexivity.
  - intros [|j] v a Hv Ha; [|discriminate].
    injection Hv as <-. injection Ha as <-.
    exists {| finish_reason := "stop"; message_content := Some "4" |}, [], "4".
    repeat split. discriminate.
  - exists {| finish_reason := "length"; message_content := Some "6, beca" |}, [].
    split; reflexivity.
  - exists w'. split; [exact Hrun|]. rewrite Hfs. reflexivity.
Defined.

(** The malformed-turn theorem on [stray_sample]: both questions are
    answered, the stray assistant turn is reached, and nothing is
    written. *)
Lemma malformed_turn_writes_nothing_witness :
  ∃ w',
    unit_at serving chat_four chat_args [Localhost 8000] stray_sample 0
      empty_world = (Ok tt, w')
    ∧ fs w' = ∅
    ∧ is_generation <$> requests w' = [false; true; true].
Proof.
  destruct (at_stubs malformed_turn_writes_nothing serving chat_four
              chat_args [Localhost 8000] 0 (Localhost 8000) empty_world
              "vicuna" [] stray_sample [] [] stray_sample
              [[("from", JStr "human"); ("value", JStr "2+2?")];
               [("from", JStr "human"); ("value", JStr "3+3?")]]
              [("from", JStr "gpt"); ("value", JStr "stray")]
              []
              [JStr "2+2?"; JStr "3+3?"] ["4"; "4"] (JStr "gpt"))
    as (w' & Hrun & Hfs & Hreq).
  - reflexivity.
  - reflexivity.
  - reflexivity.
  - eapply leading_other; reflexivity.
  - reflexivity.
  - repeat constructor.
  - reflexivity.
  - intros j v a Hv Ha.
    exists {| finish_reason := "stop"; message_content := Some "4" |}, [], "4".
    destruct j as [|[|j]]; [| |discriminate];
      injection Ha as <-; repeat split; discriminate.
  - reflexivity.
  - reflexivity.
  - exists w'. split; [exact Hrun|]. split; [exact Hfs|].
    rewrite Hreq. reflexivity.
Defined.

(** The record theorem twice: on a sample that starts with a user turn and
    whose first chat request fails, and on [be_terse_sample] with an
    answering backend. *)
Lemma record_written_iff_nonempty_witness :
  (∃ w',
     unit_at serving chat_down chat_args [Localhost 8000]
       (drop 1 be_terse_sample) 0 empty_world = (Ok tt, w')
     ∧ fs w' = ∅)
  ∧ (∃ w',
       unit_at serving chat_four chat_args [Localhost 8000]
         be_terse_sample 0 empty_world = (Ok tt, w')
       ∧ fs w' ≠ ∅).
Proof.
  split.
  - destruct (at_stubs record_written_iff_nonempty serving chat_down
                chat_args [Localhost 8000] 0 (Localhost 8000) empty_world
                "vicuna" [] (drop 1 be_terse_sample))
      as [Hfirst _]; [reflexivity|reflexivity|reflexivity|].
    destruct (Hfirst [("from", JStr "human"); ("value", JStr "2+2?")]
                [[("from", JStr "gpt"); ("value", JNull)]]
                (JStr "2+2?") (BackendError 500))
      as (w' & Hrun & Hfs);
      [reflexivity|split; reflexivity|reflexivity|].
    exists w'. split; [exact Hrun|exact Hfs].
  - destruct (at_stubs record_written_iff_nonempty serving chat_four
                chat_args [Localhost 8000] 0 (Localhost 8000) empty_world
                "vicuna" [] be_terse_sample)
      as [_ Hgeneral]; [reflexivity|reflexivity|reflexivity|].
    edestruct Hgeneral as (w' & Hrun & Hiff & _).
    + right. split; reflexivity.
    + vm_compute. reflexivity.
    + exists w'. split; [exact Hrun|]. apply Hiff. discriminate.
Defined.

(** The end-to-end theorem on an empty file system. *)
Lemma be_terse_appends_expected_line_witness :
  ∃ w',
    unit_at serving chat_four chat_args [Localhost 8000] be_terse_sample 0
      empty_world = (Ok tt, w')
    ∧ fs w' = {[ ["out.jsonl"] := File (be_terse_line +:+ str1 LF) ]}.
Proof.
  destruct (at_stubs be_terse_appends_expected_line serving chat_four
              chat_args [Localhost 8000] 0 (Localhost 8000) empty_world
              "vicuna" [])
    as (w' & Hrun & Hfs).
  - reflexivity.
  - reflexivity.
  - reflexivity.
  - right. split; reflexivity.
  - reflexivity.
  - exists w'. split; [exact Hrun|]. rewrite Hfs. reflexivity.
Defined.

(** The empty-sample theorem in both modes. *)
Lemma empty_sample_by_mode_witness :
  (unit_at serving chat_four chat_args [Localhost 8000] [] 0 empty_world).1
  = Ok tt
  ∧ (unit_at serving chat_four completion_args [Localhost 8000] [] 0
       empty_world).1 = Raise IndexError.
Proof.
  split.
  - destruct (at_stubs empty_sample_by_mode serving chat_four chat_args
                [Localhost 8000] 0 (Localhost 8000) empty_world "vicuna" [])
      as (w' & _ & _ & Hchat & _); [reflexivity|reflexivity|].
    now rewrite Hchat.
  - destruct (at_stubs empty_sample_by_mode serving chat_four completion_args
                [Localhost 8000] 0 (Localhost 8000) empty_world "vicuna" [])
      as (w' & _ & _ & _ & Hcompletion); [reflexivity|reflexivity|].
    now rewrite Hcompletion.
Defined.

(** *** The further properties on the example inputs *)

Lemma run_result {A} (m : M A) (w : world) (x : outcome A) :
  (m w).1 = x → m w = (x, (m w).2).
Proof. intros <-. now destruct (m w). Qed.

(** Full replay of [two_question_sample]: the model listing and two chat
    requests, one line written. *)
Lemma chat_replays_every_user_turn_witness :
  ∃ w',
    unit_at serving chat_four chat_args [Localhost 8000]
      two_question_sample 0 empty_world = (Ok tt, w')
    ∧ is_generation <$> requests w' = [false; true; true]
    ∧ count_lines (text_of (fs w') ["out.jsonl"]) = 1.
Proof.
  destruct (at_stubs chat_replays_every_user_turn serving chat_four
              chat_args [Localhost 8000] 0 (Localhost 8000) empty_world
              "vicuna" [] two_question_sample
              [[("from", JStr "system"); ("text", JStr "be terse")]]
              [system_message (JStr "be terse")]
              (drop 1 two_question_sample)
              [[("from", JStr "human"); ("value", JStr "2+2?")];
               [("from", JStr "human"); ("value", JStr "3+3?")]]
              [JStr "2+2?"; JStr "3+3?"] ["4"; "4"])
    as (w' & Hrun & Hfs & Hreq).
  - reflexivity.
  - reflexivity.
  - reflexivity.
  - right. split; reflexivity.
  - apply leading_system; [reflexivity|]. split; reflexivity.
  - reflexivity.
  - repeat constructor.
  - reflexivity.
  - intros j v a Hv Ha.
    exists {| finish_reason := "stop"; message_content := Some "4" |}, [], "4".
    destruct j as [|[|j]]; [| |discriminate];
      injection Ha as <-; repeat split; discriminate.
  - exists w'. split; [exact Hrun|]. rewrite Hfs, Hreq.
    split; reflexivity.
Defined.

(** The backend answers the first question of [two_question_sample] and
    fails at the second: the line of the first pair is written. *)
Lemma chat_error_keeps_completed_pairs_witness :
  ∃ w',
    unit_at serving chat_then_down chat_args [Localhost 8000]
      two_question_sample 0 empty_world = (Ok tt, w')
    ∧ fs w' !! ["out.jsonl"] = Some (File (be_terse_line +:+ str1 LF)).
Proof.
  destruct (at_stubs chat_error_keeps_completed_pairs serving chat_then_down
              chat_args [Localhost 8000] 0 (Localhost 8000) empty_world
              "vicuna" [] two_question_sample
              [[("from", JStr "system"); ("text", JStr "be terse")]]
              [system_message (JStr "be terse")]
              (drop 1 two_question_sample)
              [[("from", JStr "human"); ("value", JStr "2+2?")]]
              [("from", JStr "human"); ("value", JStr "3+3?")]
              []
              [JStr "2+2?"] (JStr "3+3?") ["4"] (BackendError 500))
    as (w' & Hrun & Hfs & _).
  - reflexivity.
  - reflexivity.
  - reflexivity.
  - right. split; reflexivity.
  - apply leading_system; [reflexivity|]. split; reflexivity.
  - reflexivity.
  - repeat constructor.
  - split; reflexivity.
  - reflexivity.
  - intros [|j] v a Hv Ha; [|discriminate].
    injection Hv as <-. injection Ha as <-.
    exists {| finish_reason := "stop"; message_content := Some "4" |}, [], "4".
    repeat split. discriminate.
  - reflexivity.
  - exists w'. split; [exact Hrun|]. rewrite Hfs. reflexivity.
Defined.

(** The second user turn of [missing_value_sample] has no content: the
    unit ends with [KeyError] and the first pair is not written. *)
Lemma chat_exception_discards_record_witness :
  ∃ w',
    unit_at serving chat_four chat_args [Localhost 8000]
      missing_value_sample 0 empty_world = (Raise (KeyError "value"), w')
    ∧ fs w' = ∅.
Proof.
  destruct (at_stubs chat_exception_discards_record serving chat_four
              chat_args [Localhost 8000] 0 (Localhost 8000) empty_world
              "vicuna" [] missing_value_sample [] [] missing_value_sample
              [[("from", JStr "human"); ("value", JStr "2+2?")]]
              [("from", JStr "human")]
              []
              [JStr "2+2?"] ["4"] (KeyError "value"))
    as (w' & Hrun & Hfs).
  - reflexivity.
  - reflexivity.
  - reflexivity.
  - eapply leading_other; reflexivity.
  - reflexivity.
  - repeat constructor.
  - reflexivity.
  - intros [|j] v a Hv Ha; [|discriminate].
    injection Hv as <-. injection Ha as <-.
    exists {| finish_reason := "stop"; message_content := Some "4" |}, [], "4".
    repeat split. discriminate.
  - apply raises_no_value; reflexivity.
  - exists w'. split; [exact Hrun|exact Hfs].
Defined.

(** [be_terse_sample] and [other_answer_sample] differ in the assistant
    turn only. *)
Lemma chat_reads_even_positions_only_witness :
  unit_at serving chat_four chat_args [Localhost 8000] be_terse_sample 0
    empty_world
  = unit_at serving chat_four chat_args [Localhost 8000] other_answer_sample
      0 empty_world.
Proof.
  apply (at_stubs chat_reads_even_positions_only serving chat_four chat_args
           [Localhost 8000] 0 empty_world be_terse_sample other_answer_sample
           [[("from", JStr "system"); ("text", JStr "be terse")]]
           [system_message (JStr "be terse")]
           (drop 1 be_terse_sample) (drop 1 other_answer_sample)).
  - reflexivity.
  - apply leading_system; [reflexivity|]. split; reflexivity.
  - apply leading_system; [reflexivity|]. split; reflexivity.
  - reflexivity.
Defined.

(** No server answers the model listing of the unit. *)
Lemma listing_failure_abandons_sample_witness :
  ∃ w',
    unit_at unreachable chat_four chat_args [Localhost 8000] be_terse_sample
      0 empty_world = (Ok tt, w')
    ∧ fs w' = ∅
    ∧ stdout w' = [CouldNotFetch (Localhost 8000)].
Proof.
  destruct (at_stubs listing_failure_abandons_sample unreachable chat_four
              chat_args [Localhost 8000] be_terse_sample 0 (Localhost 8000)
              empty_world)
    as (w' & Hrun & Hfs & _ & Hout).
  - reflexivity.
  - reflexivity.
  - exists w'. split; [exact Hrun|]. split; [exact Hfs|exact Hout].
Defined.

(** Completion mode on [be_terse_sample]. *)
Lemma completion_appends_prompt_and_answer_witness :
  ∃ w',
    unit_at serving chat_four completion_args [Localhost 8000]
      be_terse_sample 0 empty_world = (Ok tt, w')
    ∧ fs w' !! ["out.jsonl"] = Some (File (completion_line +:+ str1 LF))
    ∧ open_clients w' = [].
Proof.
  destruct (at_stubs completion_appends_prompt_and_answer serving chat_four
              completion_args [Localhost 8000] 0 (Localhost 8000) empty_world
              "vicuna" [] be_terse_sample (Some (JStr "be terse"))
              (JStr "2+2?") {| text := " 4 " |} [])
    as (w' & Hrun & Hfs & _ & _).
  - reflexivity.
  - reflexivity.
  - reflexivity.
  - right. split; reflexivity.
  - eapply completion_system; [reflexivity| |reflexivity]. split; reflexivity.
  - reflexivity.
  - exists w'. split; [exact Hrun|]. rewrite Hfs. split; [reflexivity|].
    change w' with (Ok tt, w').2. rewrite <- Hrun. reflexivity.
Defined.

(** Completion mode on [be_terse_sample] when the request fails. *)
Lemma completion_failure_writes_nothing_witness :
  ∃ w',
    generate_data unit serving chat_four completions_down string
      stub_template stub_set_system stub_roles stub_append stub_prompt
      completion_args [Localhost 8000] be_terse_sample 0 empty_world
    = (Ok tt, w')
    ∧ fs w' = ∅
    ∧ stdout w' = [FailedToGenerate (BackendError 500) "USER: ASSISTANT: "].
Proof.
  destruct (completion_failure_writes_nothing unit serving chat_four
              completions_down string stub_template stub_set_system
              stub_roles stub_append stub_prompt completion_args
              [Localhost 8000] 0 (Localhost 8000) empty_world
              "vicuna" [] be_terse_sample (Some (JStr "be terse"))
              (JStr "2+2?"))
    as [Hfailed _].
  - reflexivity.
  - reflexivity.
  - reflexivity.
  - eapply completion_system; [reflexivity| |reflexivity]. split; reflexivity.
  - destruct (Hfailed (BackendError 500)) as (w' & Hrun & Hfs & Hout & _);
      [reflexivity|].
    exists w'. split; [exact Hrun|]. split; [exact Hfs|exact Hout].
Defined.

(** Completion mode on [be_terse_sample] and on its first two turns. *)
Lemma completion_reads_two_turns_witness :
  unit_at serving chat_four completion_args [Localhost 8000] be_terse_sample
    0 empty_world
  = unit_at serving chat_four completion_args [Localhost 8000]
      (take 2 be_terse_sample) 0 empty_world.
Proof.
  apply (at_stubs completion_reads_two_turns serving chat_four
           completion_args [Localhost 8000] 0 empty_world be_terse_sample
           (take 2 be_terse_sample)).
  - reflexivity.
  - reflexivity.
Defined.

(** Completion mode on an empty sample: the unit stops before the
    completion request, and its client, handle 0, stays open. *)
Lemma completion_closes_iff_requested_witness :
  0 ∈ open_clients (unit_at serving chat_four completion_args
                      [Localhost 8000] [] 0 empty_world).2.
Proof.
  apply (at_stubs completion_closes_iff_requested serving chat_four
           completion_args [Localhost 8000] [] 0 (Localhost 8000) empty_world
           "vicuna" []).
  - reflexivity.
  - reflexivity.
  - reflexivity.
  - apply not_elem_of_nil.
  - reflexivity.
Defined.

(** Preparing the hard-coded path on an empty file system. *)
Lemma prepare_file_path_creates_once_witness :
  ∃ w',
    prepare_file_path empty_world = (Ok tt, w')
    ∧ stat (fs w') file_path = Some (File EmptyString)
    ∧ prepare_file_path w' = (Ok tt, w').
Proof.
  destruct (prepare_file_path_creates_once empty_world)
    as (w' & Hrun & _ & _ & Hnew & Hagain).
  - intros k c _. cbn. rewrite lookup_empty. discriminate.
  - exists w'. split; [exact Hrun|]. split; [|exact Hagain].
    apply Hnew. reflexivity.
Defined.


(** The run over [three_samples] on an empty file system. *)
Lemma run_only_appends_records_witness :
  ∃ r w' records,
    main_at serving chat_four chat_args three_samples empty_world = (Ok r, w')
    ∧ text_of (fs w') ["out.jsonl"] = record_lines records
    ∧ length records ≤ length (submitted r).
Proof.
  assert (Hresult : ∃ r, (main_at serving chat_four chat_args three_samples
                            empty_world).1 = Ok r).
  { vm_compute. eexists. reflexivity. }
  destruct Hresult as [r Hmain]. apply run_result in Hmain.
  destruct (at_stubs run_only_appends_records serving chat_four chat_args
              three_samples empty_world r _ Hmain)
    as (records & Htext & Hlen & _).
  eexists r, _, records.
  split; [exact Hmain|]. split; [exact Htext|exact Hlen].
Defined.


(** The run over [three_samples] on an empty file system submits the
    three of them. *)
Lemma missing_output_submits_everything_witness :
  ∃ r w',
    main_at serving chat_four chat_args three_samples empty_world = (Ok r, w')
    ∧ start_idx_of r = 0
    ∧ task_idx <$> submitted r = [0; 1; 2].
Proof.
  destruct (at_stubs missing_output_submits_everything serving chat_four
              chat_args three_samples empty_world)
    as (r & w' & Hmain & Hstart & _ & Hidx).
  - reflexivity.
  - intros [|k]; discriminate.
  - intros k c _. cbn. rewrite lookup_empty. discriminate.
  - reflexivity.
  - exists r, w'. split; [exact Hmain|]. split; [exact Hstart|exact Hidx].
Defined.

(** The run on a file system whose output path is a directory. *)
Lemma directory_output_path_ends_the_script_witness :
  exit_code (main_at serving chat_four chat_args three_samples
               directory_world).1 = 1%Z.
Proof.
  destruct (at_stubs directory_output_path_ends_the_script serving chat_four
              chat_args three_samples directory_world)
    as (w' & _ & Hexit & _).
  - reflexivity.
  - intros k c Hk. destruct k as [|k]; [lia|].
    cbn. rewrite lookup_singleton_ne; discriminate.
  - exact Hexit.
Defined.

(** Reading back the two lines of [resumed_world]. *)
Lemma read_jsonl_reads_each_record_witness :
  read_jsonl loads_empty_object (fs resumed_world) ["out.jsonl"] false
  = Ok [JObj []; JObj []].
Proof.
  destruct (read_jsonl_reads_each_record loads_empty_object
              (fs resumed_world) ["out.jsonl"] [JObj []; JObj []])
    as (_ & _ & Hback).
  - reflexivity.
  - apply Hback. repeat constructor.
Defined.

(** The data set read from [resumed_world] in debug mode has two entries,
    as many as the file has lines. *)
Lemma read_jsonl_at_most_line_count_witness :
  read_jsonl loads_empty_object (fs resumed_world) ["out.jsonl"] true
  = Ok [JObj []; JObj []]
  ∧ length [JObj []; JObj []]
    ≤ count_lines ("{}" +:+ str1 LF +:+ "{}" +:+ str1 LF).
Proof.
  split; [reflexivity|].
  apply (read_jsonl_at_most_line_count loads_empty_object
           (fs resumed_world) ["out.jsonl"] true
           ("{}" +:+ str1 LF +:+ "{}" +:+ str1 LF) [JObj []; JObj []]).
  - reflexivity.
  - reflexivity.
Defined.

(** The chat-mode run over [three_samples]: five clients, all open. *)
Lemma chat_run_closes_no_client_witness :
  ∃ r w',
    main_at serving chat_four chat_args three_samples empty_world = (Ok r, w')
    ∧ open_clients w' = [4; 3; 2; 1; 0].
Proof.
  assert (Hresult : ∃ r, (main_at serving chat_four chat_args three_samples
                            empty_world).1 = Ok r
                         ∧ live_pool r = [Localhost 8000; Localhost 8001]
                         ∧ length (submitted r) = 3).
  { vm_compute. eexists. repeat split. }
  destruct Hresult as (r & Hmain & Hpool & Hlen). apply run_result in Hmain.
  eexists r, _. split; [exact Hmain|].
  rewrite (at_stubs chat_run_closes_no_client serving chat_four chat_args
             three_samples empty_world r _ eq_refl Hmain).
  - rewrite Hlen. reflexivity.
  - rewrite Hpool. discriminate.
Defined.
